(** * LoRa link test suite: a shallow embedding of the protocol engine

    The definitions below follow [src/lora_test.py] (register-mode node,
    ping, file transfer, spectrum scan), [src/pi_responder.py] (line-mode
    send, beacon/echo mode control) and [src/laptop_controller.py]
    (line-mode send on the controller side).

    Conventions.
    - Python [bytes] are [list byte]. A Python [str] whose code points
      are all below 256 is a [string], one character per code point; a
      [str] in general is the list of its code points ([pystr]).
    - Python floats are binary64 floats ([PrimFloat.float]), with the
      machine's rounded operations and comparisons.
    - A decoded JSON object (the dict returned by [json.loads]) is an
      association list from keys to [jval]. JSON numbers are integers;
      of a nested array or object only its kind is kept.
    - Hardware, the serial line, the file system and the clock are
      inputs of the model: each function takes the outcomes of the
      calls it makes to them.
    - The request handlers and the background loops run in threads:
      their statements on the shared globals are scheduled one by one
      ([ModeScheduler.trace]). *)

From Stdlib Require Import ZArith QArith Lia Lqa Bool List Ascii String.
From Stdlib Require DecimalString DecimalZ DecimalPos.
From Stdlib Require PrimFloat FloatOps SpecFloat.
From Stdlib.Strings Require Import Byte.
From stdpp Require Import base option list gmap strings.
Import ListNotations.

Local Open Scope Z_scope.
Local Open Scope string_scope.
Local Open Scope list_scope.

(** ** JSON values, as [json.loads] returns them *)

Inductive jval : Type :=
| JNull
| JBool (b : bool)
| JInt (z : Z)
| JStr (s : string)
| JArr
| JDict.

(** Python's [==] between a decoded value and a scalar ([True] and
    [False] equal [1] and [0]). *)
Definition jval_eqb (a b : jval) : bool :=
  match a, b with
  | JNull, JNull => true
  | JBool x, JBool y => Bool.eqb x y
  | JInt x, JInt y => Z.eqb x y
  | JBool x, JInt y | JInt y, JBool x => Z.eqb (Z.b2z x) y
  | JStr x, JStr y => String.eqb x y
  | _, _ => false
  end.

(** A packet is the dict a frame decodes to. [pget] is [dict.get]
    (absent keys give [None]); subscripting with an absent key raises
    [KeyError], which callers model by the [None] case. *)
Definition packet : Type := list (string * jval).

Fixpoint pget (k : string) (p : packet) : option jval :=
  match p with
  | [] => None
  | (k', v) :: p' => if String.eqb k k' then Some v else pget k p'
  end.

Definition type_is (p : packet) (t : string) : bool :=
  match pget "type" p with
  | Some v => jval_eqb v (JStr t)
  | None => false
  end.

(** ** Mode control on the responder ([src/pi_responder.py]) *)

Module ModeScheduler.

(** The module-level globals [lora_beacon_active], [lora_echo_active]
    and [beacon_count]. *)
Record globals : Type := mkGlobals {
  lora_beacon_active : bool;
  lora_echo_active : bool;
  beacon_count : Z
}.


Inductive thread_target : Type :=
| RunLoraBeacon (interval : jval)
| RunLoraEcho.

(** The statements that touch the globals, the clock or the thread
    table, in program order. [beacon_count += 1] in the beacon loop is a
    read followed by a write: [LoadBeaconCount] reads the counter into
    the running thread's own register, [StoreBeaconCountPlus1] writes
    the register plus one. *)
Inductive instr : Type :=
| SetBeaconActive (b : bool)
| SetEchoActive (b : bool)
| SetBeaconCount (z : Z)
| LoadBeaconCount
| StoreBeaconCountPlus1
| TimeSleep (secs : Z)
| ThreadStart (t : thread_target)
| Raise.

(** One statement, run by a thread whose register holds [r]. *)
Definition exec (g : globals) (r : Z) (i : instr) : globals * Z :=
  match i with
  | SetBeaconActive b =>
      (mkGlobals b (lora_echo_active g) (beacon_count g), r)
  | SetEchoActive b =>
      (mkGlobals (lora_beacon_active g) b (beacon_count g), r)
  | SetBeaconCount z =>
      (mkGlobals (lora_beacon_active g) (lora_echo_active g) z, r)
  | LoadBeaconCount => (g, beacon_count g)
  | StoreBeaconCountPlus1 =>
      (mkGlobals (lora_beacon_active g) (lora_echo_active g) (r + 1), r)
  | TimeSleep _ | ThreadStart _ | Raise => (g, r)
  end.

(** A body run with nothing else in between: the state after each
    statement, first to last, and the state at the end. *)
Fixpoint states_from (g : globals) (r : Z) (body : list instr)
  : list globals :=
  match body with
  | [] => []
  | i :: body' =>
      let '(g', r') := exec g r i in g' :: states_from g' r' body'
  end.

Fixpoint run_from (g : globals) (r : Z) (body : list instr) : globals :=
  match body with
  | [] => g
  | i :: body' => let '(g', r') := exec g r i in run_from g' r' body'
  end.


Definition run (g : globals) (body : list instr) : globals :=
  run_from g 0 body.

Inductive message : Type :=
| Text (s : string)
| BeaconStartedEvery (interval : jval).

Record response : Type := mkResponse {
  success : bool;
  msg : message;
  beacons_sent : option Z
}.

(** The request body as Flask presents it: not JSON, a JSON object
    (with or without an ["interval"] key), or JSON of another shape,
    on which [request.json.get] raises. *)
Inductive request : Type :=
| NotJson
| JsonObject (interval : option jval)
| JsonOther.

(** [lora_beacon_start]: the body executed and the reply ([None] when
    the handler raises and Flask answers 500). *)
Definition lora_beacon_start (g : globals) (req : request)
  : list instr * option response :=
  if lora_beacon_active g then
    ([], Some (mkResponse true (Text "Already running") None))
  else
    let stop_echo := [SetEchoActive false; TimeSleep 1] in
    match req with
    | JsonOther => (stop_echo ++ [Raise], None)
    | _ =>
        let interval :=
          match req with
          | JsonObject (Some v) => v
          | _ => JInt 5
          end in
        (stop_echo ++
           [SetBeaconActive true; SetBeaconCount 0;
            ThreadStart (RunLoraBeacon interval)],
         Some (mkResponse true (BeaconStartedEvery interval) None))
    end.

Definition lora_beacon_stop (g : globals) : list instr * option response :=
  ([SetBeaconActive false],
   Some (mkResponse true (Text "Beacon stopping...") (Some (beacon_count g)))).

Definition lora_echo_start (g : globals) : list instr * option response :=
  if lora_echo_active g then
    ([], Some (mkResponse true (Text "Already running") None))
  else
    ([SetBeaconActive false; TimeSleep 1;
      SetEchoActive true; ThreadStart RunLoraEcho],
     Some (mkResponse true (Text "Echo mode started") None)).

Definition lora_echo_stop (g : globals) : list instr * option response :=
  ([SetEchoActive false],
   Some (mkResponse true (Text "Echo mode stopping...") None)).


(** One turn of [while lora_beacon_active:] in [run_lora_beacon], as
    far as the globals go: nothing when the flag is clear (the loop
    ends); with the flag set, nothing when [get_lora()] gives no device
    (the pass sleeps and continues), and the increment of the counter
    otherwise. The flag is read when the turn begins; the statements run
    later, each at its own time. *)
Definition beacon_loop_pass (g : globals) (present : bool) : list instr :=
  if lora_beacon_active g then
    if present then [LoadBeaconCount; StoreBeaconCountPlus1] else []
  else [].

Inductive op : Type :=
| StartBeacon (req : request)
| StopBeacon
| StartEcho
| StopEcho
| BeaconPass (present : bool).

(** The statements an operation will run, as decided by the flags it
    reads when it begins. *)
Definition body_of (g : globals) (o : op) : list instr :=
  match o with
  | StartBeacon req => fst (lora_beacon_start g req)
  | StopBeacon => fst (lora_beacon_stop g)
  | StartEcho => fst (lora_echo_start g)
  | StopEcho => fst (lora_echo_stop g)
  | BeaconPass present => beacon_loop_pass g present
  end.

(** *** Operations served one at a time *)


(** *** Operations served by threads

    The server runs with [threaded=True] and the loops in threads of
    their own: an operation begins at any time, and the statements of
    the operations under way run in any order that keeps each
    operation's own order. *)

(** An operation under way: the statements it has left and its
    register. *)
Record thread : Type := mkThread {
  code : list instr;
  reg : Z
}.

(** What happens next: an operation begins (it reads the flags and
    joins the pool), or the [k]-th operation of the pool runs its next
    statement. *)
Inductive action : Type :=
| Arrive (o : op)
| Step (k : nat).

Definition step_thread (g : globals) (t : thread) : globals * thread :=
  match code t with
  | [] => (g, t)
  | i :: rest => let '(g', r') := exec g (reg t) i in (g', mkThread rest r')
  end.

Definition act (g : globals) (ts : list thread) (a : action)
  : globals * list thread :=
  match a with
  | Arrive o => (g, ts ++ [mkThread (body_of g o) 0])
  | Step k =>
      match ts !! k with
      | Some t => let '(g', t') := step_thread g t in (g', <[k := t']> ts)
      | None => (g, ts)
      end
  end.

(** The state of the globals after each action of a schedule. *)
Fixpoint trace (g : globals) (ts : list thread) (schedule : list action)
  : list globals :=
  match schedule with
  | [] => []
  | a :: schedule' =>
      let '(g', ts') := act g ts a in g' :: trace g' ts' schedule'
  end.





Definition both_active (g : globals) : bool :=
  lora_beacon_active g && lora_echo_active g.

Definition exclusive (g : globals) : Prop := both_active g = false.



End ModeScheduler.

(** ** Text helpers: [str.lower], [in] on strings, [bytes.hex] *)

(** [str.lower] on one code point below 256: the capitals A-Z and the
    Latin-1 capitals 192-222 (except 215, the multiplication sign) move
    up by 32. *)
Definition lower_char (c : ascii) : ascii :=
  let n := N_of_ascii c in
  if ((65 <=? n) && (n <=? 90)
      || (192 <=? n) && (n <=? 222) && negb (n =? 215))%N
  then ascii_of_N (n + 32)
  else c.

Fixpoint lower (s : string) : string :=
  match s with
  | EmptyString => EmptyString
  | String c s' => String (lower_char c) (lower s')
  end.

(** [contains needle hay] is Python's [needle in hay]. *)
Fixpoint contains (needle hay : string) : bool :=
  String.prefix needle hay ||
  match hay with
  | EmptyString => false
  | String _ hay' => contains needle hay'
  end.

Definition hex_digit (n : N) : ascii :=
  ascii_of_N (if (n <? 10)%N then 48 + n else 87 + n)%N.

Definition hex_of_byte (b : byte) : string :=
  let n := Byte.to_N b in
  String (hex_digit (n / 16)) (String (hex_digit (n mod 16)) EmptyString).

(** [bytes.hex]. *)
Fixpoint hex (bs : list byte) : string :=
  match bs with
  | [] => EmptyString
  | b :: bs' => hex_of_byte b ++ hex bs'
  end.

Definition byte_of_N (n : N) : byte :=
  default x00 (Byte.of_N (n mod 256)).

(** [str.encode]: UTF-8. A [string] stands for the Python text whose
    code points are its characters (all below 256). *)
Definition encode_char (c : ascii) : list byte :=
  let n := N_of_ascii c in
  if (n <? 128)%N then [byte_of_N n]
  else [byte_of_N (192 + n / 64); byte_of_N (128 + n mod 64)].

Fixpoint encode (s : string) : list byte :=
  match s with
  | EmptyString => []
  | String c s' => encode_char c ++ encode s'
  end.

(** ** General text: code points and UTF-8 *)

Section Utf8.

Local Open Scope N_scope.

(** A Python [str] in general: its code points, each below 1114112.
    [text s] is the [str] a [string] stands for. *)
Definition pystr : Type := list N.

Definition text (s : string) : pystr :=
  map N_of_ascii (list_ascii_of_string s).



(** [bytes.decode('utf-8', errors='replace')]: every maximal ill-formed
    run of bytes becomes one U+FFFD. *)
Definition REPLACEMENT : N := 65533.

Definition continuation (b : N) : bool := (128 <=? b) && (b <? 192).

Fixpoint utf8_decode_replace (bs : list byte) : pystr :=
  match bs with
  | [] => []
  | c0 :: rest =>
      let b0 := Byte.to_N c0 in
      if b0 <? 128 then b0 :: utf8_decode_replace rest
      else if b0 <? 194 then REPLACEMENT :: utf8_decode_replace rest
      else if b0 <? 224 then
        match rest with
        | [] => [REPLACEMENT]
        | c1 :: r1 =>
            let b1 := Byte.to_N c1 in
            if continuation b1 then
              ((b0 - 192) * 64 + (b1 - 128)) :: utf8_decode_replace r1
            else REPLACEMENT :: utf8_decode_replace rest
        end
      else if b0 <? 240 then
        match rest with
        | [] => [REPLACEMENT]
        | c1 :: r1 =>
            let b1 := Byte.to_N c1 in
            if negb (continuation b1)
               || (if b1 <? 160 then b0 =? 224 else b0 =? 237) then
              REPLACEMENT :: utf8_decode_replace rest
            else
              match r1 with
              | [] => [REPLACEMENT]
              | c2 :: r2 =>
                  let b2 := Byte.to_N c2 in
                  if continuation b2 then
                    ((b0 - 224) * 4096 + (b1 - 128) * 64 + (b2 - 128))
                    :: utf8_decode_replace r2
                  else REPLACEMENT :: utf8_decode_replace r1
              end
        end
      else if b0 <? 245 then
        match rest with
        | [] => [REPLACEMENT]
        | c1 :: r1 =>
            let b1 := Byte.to_N c1 in
            if negb (continuation b1)
               || (if b1 <? 144 then b0 =? 240 else b0 =? 244) then
              REPLACEMENT :: utf8_decode_replace rest
            else
              match r1 with
              | [] => [REPLACEMENT]
              | c2 :: r2 =>
                  let b2 := Byte.to_N c2 in
                  if continuation b2 then
                    match r2 with
                    | [] => [REPLACEMENT]
                    | c3 :: r3 =>
                        let b3 := Byte.to_N c3 in
                        if continuation b3 then
                          ((b0 - 240) * 262144 + (b1 - 128) * 4096
                           + (b2 - 128) * 64 + (b3 - 128))
                          :: utf8_decode_replace r3
                        else REPLACEMENT :: utf8_decode_replace r2
                    end
                  else REPLACEMENT :: utf8_decode_replace r1
              end
        end
      else REPLACEMENT :: utf8_decode_replace rest
  end.

End Utf8.

(** ** Line-mode send ([src/pi_responder.py], [src/laptop_controller.py]) *)

Module LineMode.

(** The serial line to the module. [rx] holds what the successive
    [ser.read(256)] calls will return, already decoded and stripped (a
    read past the end returns the empty text); [tx] is what has been
    written, oldest first. [opened] is the global [lora_serial]. *)
Record port : Type := mkPort {
  device_present : bool;
  opened : bool;
  rx : list string;
  tx : list string
}.

Definition read (p : port) : string * port :=
  (hd "" (rx p), mkPort (device_present p) (opened p) (tl (rx p)) (tx p)).

Definition write (line : string) (p : port) : port :=
  mkPort (device_present p) (opened p) (rx p) (tx p ++ [line]).

(** [get_lora]: [true] when a handle is returned. Opening pauses the
    MAC and drops one read. *)
Definition get_lora (p : port) : bool * port :=
  if opened p then (true, p)
  else if device_present p then
    let p1 := mkPort true true (rx p) (tx p) in
    (true, snd (read (write "mac pause" p1)))
  else (false, p).

(** [lora_send_cmd]. *)
Definition lora_send_cmd (cmd : string) (p : port) : option string * port :=
  let '(ser, p1) := get_lora p in
  if ser then
    let '(text, p2) := read (write cmd p1) in (Some text, p2)
  else (None, p1).







End LineMode.

(** ** Register-mode node ([LoRaNode], [src/lora_test.py]) *)

Module LoRaNode.

Inductive radio_mode : Type := SLEEP | STDBY | TX | RXCONT.

(** The transceiver behind [self.lora]: its mode register and the
    payload last handed to [write_payload]. *)
Record transceiver : Type := mkTransceiver {
  mode : radio_mode;
  fifo : list byte
}.

(** What the hardware does during one [send_packet]: the transmit-done
    flag is seen before the five-second deadline, it is not, or a
    register access raises before anything is written. *)
Inductive tx_outcome : Type := TxDone | TxTimeout | TxRaises.

(** The argument of [send_packet]: a [str] or a bytes-like value. *)
Inductive payload_arg : Type :=
| Str (s : string)
| Bytes (bs : list byte).

Definition MAX_PACKET : nat := 255.

(** [list(data.encode())] or [list(data)]. *)
Definition encoded (data : payload_arg) : list byte :=
  match data with
  | Str s => encode s
  | Bytes bs => bs
  end.

(** [payload = payload[:255]]. *)
Definition payload_of (data : payload_arg) : list byte :=
  firstn MAX_PACKET (encoded data).

(** What the radio holds after the call, if there is a radio. *)
Definition written (after : option transceiver) : list byte :=
  match after with
  | Some r => fifo r
  | None => []
  end.

(** [send_packet]: the returned flag and the transceiver afterwards.
    [lora = None] is simulation mode. *)
Definition send_packet (lora : option transceiver) (data : payload_arg)
    (hw : tx_outcome) : bool * option transceiver :=
  match lora with
  | None => (true, None)
  | Some r =>
      match hw with
      | TxRaises => (false, Some r)
      | TxDone => (true, Some (mkTransceiver TX (payload_of data)))
      | TxTimeout => (false, Some (mkTransceiver TX (payload_of data)))
      end
  end.

End LoRaNode.

(** ** Ping ([LoRaPing], [src/lora_test.py]) *)

Module LoRaPing.

(** A Python [int] as the float it converts to (rounded to nearest,
    ties to even). *)
Definition float_of_Z (z : Z) : PrimFloat.float :=
  FloatOps.SF2Prim
    (SpecFloat.binary_normalize FloatOps.prec FloatOps.emax z 0 false).

(** [self.stats]. The round-trip fields are Python floats (binary64):
    [rtt_min] starts at [float('inf')], the others at 0. [None] in
    [rssi_min] is [float('inf')], in [rssi_max] it is [float('-inf')];
    the signal strengths are integers, and [rssi_avg] is kept as the
    exact quotient of the two integers that Python divides. *)
Record stats : Type := mkStats {
  sent : Z;
  received : Z;
  lost : Z;
  rtt_min : PrimFloat.float;
  rtt_max : PrimFloat.float;
  rtt_avg : PrimFloat.float;
  rtt_total : PrimFloat.float;
  rssi_min : option Q;
  rssi_max : option Q;
  rssi_avg : Q;
  rssi_total : Q
}.

Definition reset_stats : stats :=
  mkStats 0 0 0 PrimFloat.infinity PrimFloat.zero PrimFloat.zero
    PrimFloat.zero None None 0 0.

Definition min_inf (m : option Q) (x : Q) : Q :=
  match m with
  | None => x
  | Some y => if Qle_bool y x then y else x
  end.

Definition max_neg_inf (m : option Q) (x : Q) : Q :=
  match m with
  | None => x
  | Some y => if Qle_bool x y then y else x
  end.

(** [min(a, b)] and [max(a, b)] on floats: [b] when it is smaller,
    respectively greater, than [a], and [a] otherwise. *)
Definition float_min (a b : PrimFloat.float) : PrimFloat.float :=
  if PrimFloat.ltb b a then b else a.

Definition float_max (a b : PrimFloat.float) : PrimFloat.float :=
  if PrimFloat.ltb a b then b else a.

(** [update_stats]. *)
Definition update_stats (st : stats) (rtt : PrimFloat.float)
    (rssi : option Z) : stats :=
  let received' := received st + 1 in
  let rtt_total' := PrimFloat.add (rtt_total st) rtt in
  let rtt_min' := float_min (rtt_min st) rtt in
  let rtt_max' := float_max (rtt_max st) rtt in
  let rtt_avg' := PrimFloat.div rtt_total' (float_of_Z received') in
  match rssi with
  | Some r =>
      let rssi_total' := (rssi_total st + inject_Z r)%Q in
      mkStats (sent st) received' (lost st)
        rtt_min' rtt_max' rtt_avg' rtt_total'
        (Some (min_inf (rssi_min st) (inject_Z r)))
        (Some (max_neg_inf (rssi_max st) (inject_Z r)))
        (rssi_total' / inject_Z received')%Q rssi_total'
  | None =>
      mkStats (sent st) received' (lost st)
        rtt_min' rtt_max' rtt_avg' rtt_total'
        (rssi_min st) (rssi_max st) (rssi_avg st) (rssi_total st)
  end.

Definition add_sent (st : stats) : stats :=
  mkStats (sent st + 1) (received st) (lost st)
    (rtt_min st) (rtt_max st) (rtt_avg st) (rtt_total st)
    (rssi_min st) (rssi_max st) (rssi_avg st) (rssi_total st).

Definition add_lost (st : stats) : stats :=
  mkStats (sent st) (received st) (lost st + 1)
    (rtt_min st) (rtt_max st) (rtt_avg st) (rtt_total st)
    (rssi_min st) (rssi_max st) (rssi_avg st) (rssi_total st).

(** What [receive_packet] and [json.loads] give for one probe:
    nothing (a falsy response), text on which [json.loads] or
    [pong.get] raises, or a decoded object together with the measured
    round-trip time and the signal strength. *)
Inductive reply : Type :=
| NoResponse
| Undecodable
| Decoded (pong : packet) (rtt : PrimFloat.float) (rssi : option Z).

(** One probe: [send_packet] returned false, or it returned true and
    the reply is as given. *)
Inductive probe : Type :=
| TxFailed
| TxOk (r : reply).

(** The line printed for a probe. *)
Inductive line : Type :=
| ReplyFrom (src : jval)
| InvalidResponse
| MalformedResponse
| RequestTimeout
| TransmissionFailed.

Definition valid_pong (pong : packet) (seq : Z) : bool :=
  type_is pong "PONG" &&
  match pget "seq" pong with
  | Some v => jval_eqb v (JInt seq)
  | None => false
  end.

(** The body of the [for seq in range(1, count + 1)] loop. *)
Definition ping_step (seq : Z) (st : stats) (o : probe) : stats * line :=
  match o with
  | TxFailed => (add_lost st, TransmissionFailed)
  | TxOk r =>
      let st1 := add_sent st in
      match r with
      | NoResponse => (add_lost st1, RequestTimeout)
      | Undecodable => (add_lost st1, MalformedResponse)
      | Decoded pong rtt rssi =>
          if valid_pong pong seq then
            let st2 := update_stats st1 rtt rssi in
            match pget "from" pong with
            | Some src => (st2, ReplyFrom src)
            | None => (add_lost st2, MalformedResponse)
            end
          else (add_lost st1, InvalidResponse)
      end
  end.

Fixpoint ping_loop (seq : Z) (st : stats) (os : list probe)
  : stats * list line :=
  match os with
  | [] => (st, [])
  | o :: os' =>
      let '(st1, l) := ping_step seq st o in
      let '(st2, ls) := ping_loop (seq + 1) st1 os' in
      (st2, l :: ls)
  end.

(** [run_ping] on a fresh [LoRaPing] object, with [count] the number of
    probe outcomes supplied. *)
Definition run_ping (os : list probe) : stats * list line :=
  ping_loop 1 reset_stats os.

(** The loss figure of [print_statistics], printed only when
    [sent > 0]. *)
Definition loss_percent (st : stats) : option Q :=
  if (0 <? sent st)%Z
  then Some (inject_Z (lost st) / inject_Z (sent st) * 100)%Q
  else None.

(** By how much received + lost exceeds sent. *)
Definition excess (st : stats) : Z := received st + lost st - sent st.

(** The number of probes whose transmission failed. *)
Fixpoint tx_failures (os : list probe) : Z :=
  match os with
  | [] => 0
  | TxFailed :: os' => 1 + tx_failures os'
  | TxOk _ :: os' => tx_failures os'
  end.

(** A reply that passes the type and sequence check but has no
    ["from"] key: the lookup for the printed line raises after the
    statistics were updated. *)
Definition accepted_without_from (seq : Z) (o : probe) : bool :=
  match o with
  | TxOk (Decoded pong _ _) =>
      valid_pong pong seq &&
      match pget "from" pong with Some _ => false | None => true end
  | _ => false
  end.

Fixpoint all_replies_printable (seq : Z) (os : list probe) : bool :=
  match os with
  | [] => true
  | o :: os' =>
      negb (accepted_without_from seq o)
      && all_replies_printable (seq + 1) os'
  end.

End LoRaPing.

(** ** Digest and transfer encoding used by the file transfer *)

Module Codec.

(** *** [hashlib.md5] (RFC 1321), on 32-bit words held in [Z] *)

Definition mask32 : Z := 0xffffffff.

Definition add32 (x y : Z) : Z := Z.land (x + y) mask32.

Definition not32 (x : Z) : Z := Z.lxor x mask32.

Definition rotl32 (x : Z) (c : Z) : Z :=
  Z.land (Z.lor (Z.shiftl x c) (Z.shiftr x (32 - c))) mask32.

Definition K : list Z :=
  [
   0xd76aa478; 0xe8c7b756; 0x242070db; 0xc1bdceee;
   0xf57c0faf; 0x4787c62a; 0xa8304613; 0xfd469501;
   0x698098d8; 0x8b44f7af; 0xffff5bb1; 0x895cd7be;
   0x6b901122; 0xfd987193; 0xa679438e; 0x49b40821;
   0xf61e2562; 0xc040b340; 0x265e5a51; 0xe9b6c7aa;
   0xd62f105d; 0x02441453; 0xd8a1e681; 0xe7d3fbc8;
   0x21e1cde6; 0xc33707d6; 0xf4d50d87; 0x455a14ed;
   0xa9e3e905; 0xfcefa3f8; 0x676f02d9; 0x8d2a4c8a;
   0xfffa3942; 0x8771f681; 0x6d9d6122; 0xfde5380c;
   0xa4beea44; 0x4bdecfa9; 0xf6bb4b60; 0xbebfbc70;
   0x289b7ec6; 0xeaa127fa; 0xd4ef3085; 0x04881d05;
   0xd9d4d039; 0xe6db99e5; 0x1fa27cf8; 0xc4ac5665;
   0xf4292244; 0x432aff97; 0xab9423a7; 0xfc93a039;
   0x655b59c3; 0x8f0ccc92; 0xffeff47d; 0x85845dd1;
   0x6fa87e4f; 0xfe2ce6e0; 0xa3014314; 0x4e0811a1;
   0xf7537e82; 0xbd3af235; 0x2ad7d2bb; 0xeb86d391
  ].

Definition shifts : list Z :=
  [7; 12; 17; 22; 7; 12; 17; 22; 7; 12; 17; 22; 7; 12; 17; 22;
   5; 9; 14; 20; 5; 9; 14; 20; 5; 9; 14; 20; 5; 9; 14; 20;
   4; 11; 16; 23; 4; 11; 16; 23; 4; 11; 16; 23; 4; 11; 16; 23;
   6; 10; 15; 21; 6; 10; 15; 21; 6; 10; 15; 21; 6; 10; 15; 21].

Definition z_of_byte (b : byte) : Z := Z.of_N (Byte.to_N b).

Definition byte_of_Z (z : Z) : byte := byte_of_N (Z.to_N (Z.land z 0xff)).

(** A 32-bit word from four bytes, least significant first, and back. *)
Definition word_le (bs : list byte) : Z :=
  fold_right (fun b acc => z_of_byte b + 256 * acc) 0 (firstn 4 bs).

Definition bytes_le (n : nat) (w : Z) : list byte :=
  map (fun i => byte_of_Z (Z.shiftr w (8 * Z.of_nat i))) (seq 0 n).

Fixpoint words (n : nat) (bs : list byte) : list Z :=
  match n with
  | O => []
  | S n' => word_le bs :: words n' (skipn 4 bs)
  end.

Definition md5_state : Type := (Z * Z * Z * Z)%type.

Definition md5_init : md5_state :=
  (0x67452301, 0xefcdab89, 0x98badcfe, 0x10325476).

Definition md5_round (M : list Z) (st : md5_state) (i : nat) : md5_state :=
  let '(A, B, C, D) := st in
  let zi := Z.of_nat i in
  let '(F, g) :=
    if (zi <? 16)%Z then
      (Z.lor (Z.land B C) (Z.land (not32 B) D), zi)
    else if (zi <? 32)%Z then
      (Z.lor (Z.land D B) (Z.land (not32 D) C), (5 * zi + 1) mod 16)
    else if (zi <? 48)%Z then
      (Z.lxor (Z.lxor B C) D, (3 * zi + 5) mod 16)
    else
      (Z.lxor C (Z.lor B (not32 D)), (7 * zi) mod 16) in
  let F' := add32 (add32 (add32 F A) (nth i K 0)) (nth (Z.to_nat g) M 0) in
  (D, add32 B (rotl32 F' (nth i shifts 0)), B, C).

Definition md5_block (st : md5_state) (block : list byte) : md5_state :=
  let M := words 16 block in
  let '(a0, b0, c0, d0) := st in
  let '(A, B, C, D) := fold_left (md5_round M) (seq 0 64) st in
  (add32 a0 A, add32 b0 B, add32 c0 C, add32 d0 D).

Fixpoint md5_blocks (n : nat) (st : md5_state) (bs : list byte) : md5_state :=
  match n with
  | O => st
  | S n' => md5_blocks n' (md5_block st (firstn 64 bs)) (skipn 64 bs)
  end.

(** The message followed by the bit 1, zeros up to 56 modulo 64, and
    the bit length on eight bytes. *)
Definition md5_pad (bs : list byte) : list byte :=
  let len := Z.of_nat (List.length bs) in
  let zeros := Z.to_nat ((55 - len) mod 64) in
  bs ++ [x80] ++ repeat x00 zeros
     ++ bytes_le 8 (Z.land (8 * len) 0xffffffffffffffff).

Definition md5 (bs : list byte) : list byte :=
  let padded := md5_pad bs in
  let '(a, b, c, d) :=
    md5_blocks (List.length padded / 64) md5_init padded in
  bytes_le 4 a ++ bytes_le 4 b ++ bytes_le 4 c ++ bytes_le 4 d.

(** [hashlib.md5(bs).hexdigest()]. *)
Definition md5_hexdigest (bs : list byte) : string := hex (md5 bs).


(** *** [base64.b64encode] and [base64.b64decode] (RFC 4648) *)

Definition b64_char (n : N) : ascii :=
  ascii_of_N
    (if n <? 26 then 65 + n
     else if n <? 52 then 71 + n
     else if n <? 62 then n - 4
     else if n =? 62 then 43
     else 47)%N.

Definition b64_value (c : ascii) : option N :=
  let n := N_of_ascii c in
  (if (65 <=? n) && (n <=? 90) then Some (n - 65)
   else if (97 <=? n) && (n <=? 122) then Some (n - 71)
   else if (48 <=? n) && (n <=? 57) then Some (n + 4)
   else if n =? 43 then Some 62
   else if n =? 47 then Some 63
   else None)%N.

Definition pad_char : ascii := "="%char.

(** The four sextets of a group of three bytes. *)
Definition sextet1 (a : byte) : N := N.shiftr (Byte.to_N a) 2.

Definition sextet2 (a b : byte) : N :=
  N.lor (N.shiftl (N.land (Byte.to_N a) 3) 4) (N.shiftr (Byte.to_N b) 4).

Definition sextet3 (b c : byte) : N :=
  N.lor (N.shiftl (N.land (Byte.to_N b) 15) 2) (N.shiftr (Byte.to_N c) 6).

Definition sextet4 (c : byte) : N := N.land (Byte.to_N c) 63.

(** [b64encode(bs).decode()]: three bytes give four characters; a last
    group of one or two bytes is padded with [=]. *)
Fixpoint b64encode (bs : list byte) : string :=
  match bs with
  | [] => EmptyString
  | [a] =>
      String (b64_char (sextet1 a)) (String (b64_char (sextet2 a x00))
        (String pad_char (String pad_char EmptyString)))
  | [a; b] =>
      String (b64_char (sextet1 a)) (String (b64_char (sextet2 a b))
        (String (b64_char (sextet3 b x00)) (String pad_char EmptyString)))
  | a :: b :: c :: rest =>
      String (b64_char (sextet1 a)) (String (b64_char (sextet2 a b))
        (String (b64_char (sextet3 b c)) (String (b64_char (sextet4 c))
          (b64encode rest))))
  end.

(** The non-validating decoder behind [b64decode]: characters outside
    the alphabet are skipped, a completed pad sequence ends the input,
    and data left in an unfinished quad is an error ([None]).
    [quad_pos] counts the sextets of the current quad, [leftchar]
    holds its pending bits and [pads] the pad characters just seen. *)
Fixpoint a2b_base64 (s : string) (quad_pos : N) (leftchar : N) (pads : N)
  : option (list byte) :=
  match s with
  | EmptyString => if (quad_pos =? 0)%N then Some [] else None
  | String ch s' =>
      if Ascii.eqb ch pad_char then
        if (2 <=? quad_pos)%N then
          if (4 <=? quad_pos + (pads + 1))%N then Some []
          else a2b_base64 s' quad_pos leftchar (pads + 1)%N
        else a2b_base64 s' quad_pos leftchar pads
      else
        match b64_value ch with
        | None => a2b_base64 s' quad_pos leftchar pads
        | Some v =>
            if (quad_pos =? 0)%N then a2b_base64 s' 1%N v 0%N
            else if (quad_pos =? 1)%N then
              cons (byte_of_N (N.lor (N.shiftl leftchar 2) (N.shiftr v 4)))
                <$> a2b_base64 s' 2%N (N.land v 15) 0%N
            else if (quad_pos =? 2)%N then
              cons (byte_of_N (N.lor (N.shiftl leftchar 4) (N.shiftr v 2)))
                <$> a2b_base64 s' 3%N (N.land v 3) 0%N
            else
              cons (byte_of_N (N.lor (N.shiftl leftchar 6) v))
                <$> a2b_base64 s' 0%N 0%N 0%N
        end
  end.

Fixpoint is_ascii_text (s : string) : bool :=
  match s with
  | EmptyString => true
  | String c s' => (N_of_ascii c <? 128)%N && is_ascii_text s'
  end.

(** [base64.b64decode] on a [str]; [None] when it raises. *)
Definition b64decode (s : string) : option (list byte) :=
  if is_ascii_text s then a2b_base64 s 0%N 0%N 0%N else None.

(** Checking a property on every number below a bound, on every byte
    and on every pair of bytes, by enumeration. *)
Definition check_below (bound : nat) (P : N -> bool) : bool :=
  forallb P (map N.of_nat (seq 0 bound)).

Definition check_bytes (P : byte -> bool) : bool :=
  check_below 256 (fun n => P (byte_of_N n)).

Definition check_byte_pairs (P : byte -> byte -> bool) : bool :=
  check_bytes (fun a => check_bytes (P a)).

End Codec.

(** ** File transfer ([LoRaFileTransfer], [src/lora_test.py]) *)

Module LoRaFileTransfer.

Import Codec.

Definition CHUNK_SIZE : Z := 200.
Definition WINDOW_SIZE : Z := 5.

(** *** Sender *)

(** What the radio does during one [send_file]: the result of sending
    the announcement, whether a truthy response came back within the
    window, and the result of sending each chunk. *)
Record link : Type := mkLink {
  info_sent : bool;
  ack_received : bool;
  chunk_sent : Z -> bool
}.

(** [f.read(n)] on the unread rest of the file: the bytes read and
    what is left. A size of -1 reads everything; a size below -1 raises
    [ValueError] ([None]). *)
Definition f_read (n : Z) (rest : list byte)
  : option (list byte * list byte) :=
  if (n <? -1)%Z then None
  else if (n =? -1)%Z then Some (rest, [])
  else Some (firstn (Z.to_nat n) rest, skipn (Z.to_nat n) rest).

Definition file_info_packet (node_id dest filename : string)
    (filesize num_chunks : Z) (file_hash : string) : packet :=
  [("type", JStr "FILE_INFO"); ("from", JStr node_id); ("to", JStr dest);
   ("filename", JStr filename); ("size", JInt filesize);
   ("chunks", JInt num_chunks); ("hash", JStr file_hash)].

Definition file_data_packet (chunk_num num_chunks : Z)
    (chunk_data : list byte) : packet :=
  [("type", JStr "FILE_DATA"); ("chunk", JInt chunk_num);
   ("total", JInt num_chunks); ("data", JStr (b64encode chunk_data))].

Definition file_complete_packet (filename file_hash : string) : packet :=
  [("type", JStr "FILE_COMPLETE"); ("filename", JStr filename);
   ("hash", JStr file_hash)].

(** The [for chunk_num in range(num_chunks)] loop, [n] chunks from
    [chunk_num] on: the packets handed to [send_packet] and the final
    value of [sent], or [None] when [f.read] raised. *)
Fixpoint send_chunks (chunk_size : Z) (l : link) (num_chunks : Z)
    (n : nat) (chunk_num : Z) (f : list byte) (sent : Z)
  : list packet * option Z :=
  match n with
  | O => ([], Some sent)
  | S n' =>
      match f_read chunk_size f with
      | None => ([], None)
      | Some (chunk_data, f') =>
          let pkt := file_data_packet chunk_num num_chunks chunk_data in
          let sent' :=
            if chunk_sent l chunk_num then (sent + 1)%Z else sent in
          let '(pkts, sent'') :=
            send_chunks chunk_size l num_chunks n' (chunk_num + 1)%Z f'
              sent' in
          (pkt :: pkts, sent'')
      end
  end.

(** How [send_file] ends: it returns, or the chunk count divides by
    zero, or [f.read] refuses the chunk size. *)
Inductive send_result : Type :=
| Returned (b : bool)
| ZeroDivision
| ReadValueError.

(** [send_file]: the packets handed to [send_packet], in order, and how
    the call ends. [file] is the content at [filepath] ([None] when the
    path does not exist) and [filename] its base name. *)
Definition send_file (node_id : string) (chunk_size : Z)
    (file : option (list byte)) (filename dest : string) (l : link)
  : list packet * send_result :=
  match file with
  | None => ([], Returned false)
  | Some content =>
      let filesize := Z.of_nat (List.length content) in
      let file_hash := md5_hexdigest content in
      if (chunk_size =? 0)%Z then ([], ZeroDivision)
      else
        let num_chunks := ((filesize + chunk_size - 1) / chunk_size)%Z in
        let info :=
          file_info_packet node_id dest filename filesize num_chunks
            file_hash in
        if negb (info_sent l) then ([info], Returned false)
        else if negb (ack_received l) then ([info], Returned false)
        else
          match
            send_chunks chunk_size l num_chunks (Z.to_nat num_chunks) 0
              content 0
          with
          | (pkts, Some _) =>
              (info :: pkts ++ [file_complete_packet filename file_hash],
               Returned true)
          | (pkts, None) => (info :: pkts, ReadValueError)
          end
  end.

(** *** Receiver *)

(** The keys of the [chunks] dict: the hashable JSON values, with
    [True] and [False] the same keys as [1] and [0]. *)
Inductive pykey : Type :=
| KNone
| KInt (z : Z)
| KStr (s : string).

Definition key_of (v : jval) : option pykey :=
  match v with
  | JNull => Some KNone
  | JBool b => Some (KInt (Z.b2z b))
  | JInt z => Some (KInt z)
  | JStr s => Some (KStr s)
  | JArr | JDict => None
  end.

#[global] Instance pykey_eq_dec : EqDecision pykey.
Proof. solve_decision. Defined.

Definition pykey_to_sum (k : pykey) : unit + (Z + string) :=
  match k with
  | KNone => inl tt
  | KInt z => inr (inl z)
  | KStr s => inr (inr s)
  end.

Definition pykey_of_sum (x : unit + (Z + string)) : pykey :=
  match x with
  | inl _ => KNone
  | inr (inl z) => KInt z
  | inr (inr s) => KStr s
  end.

#[global] Instance pykey_countable : Countable pykey.
Proof.
  apply (inj_countable' pykey_to_sum pykey_of_sum).
  intros []; reflexivity.
Defined.

(** The two locals of [receive_file]. *)
Record session : Type := mkSession {
  file_info : option packet;
  chunks : gmap pykey (list byte)
}.

Definition session_start : session := mkSession None ∅.

(** What one turn of the loop gets from [receive_packet] and
    [json.loads]: no data, data on which [json.loads] or [packet.get]
    raises, or a decoded object. *)
Inductive rx_item : Type :=
| RxNothing
| RxUndecodable
| RxPacket (p : packet).

(** What a turn of the loop does besides updating the locals. *)
Inductive event : Type :=
| SendAck (ack : packet)
| WriteFile (path : string) (content : list byte)
| HashVerified (path : string) (received_hash : string)
| HashMismatch
| ErrorProcessing.

(** Truth value of [file_info]: [None] and the empty dict are false. *)
Definition truthy (fi : option packet) : bool :=
  match fi with
  | Some (_ :: _) => true
  | _ => false
  end.

(** [range(v)]: the bound, or [None] when [v] is not an integer. *)
Definition range_bound (v : jval) : option Z :=
  match v with
  | JInt n => Some n
  | JBool b => Some (Z.b2z b)
  | _ => None
  end.

(** The bytes written by
    [for i in range(n): if i in chunks: f.write(chunks[i])],
    for the [count] indices from [i] on. *)
Fixpoint assemble (chunks : gmap pykey (list byte)) (count : nat) (i : Z)
  : list byte :=
  match count with
  | O => []
  | S count' =>
      match chunks !! KInt i with
      | Some chunk => chunk ++ assemble chunks count' (i + 1)%Z
      | None => assemble chunks count' (i + 1)%Z
      end
  end.

Fixpoint ends_with_slash (s : string) : bool :=
  match s with
  | EmptyString => false
  | String c EmptyString => Ascii.eqb c "/"
  | String _ s' => ends_with_slash s'
  end.

(** [os.path.join(save_dir, name)]. *)
Definition path_join (save_dir name : string) : string :=
  if String.prefix "/" name then name
  else if String.eqb save_dir "" then name
  else if ends_with_slash save_dir then save_dir ++ name
  else save_dir ++ "/" ++ name.

(** [file_info[key]]; [None] when the subscript raises. *)
Definition info_get (st : session) (key : string) : option jval :=
  match file_info st with
  | Some fi => pget key fi
  | None => None
  end.

Definition ack_packet (node_id : string) : packet :=
  [("type", JStr "ACK"); ("from", JStr node_id)].

Section Receiver.

(** The node identifier, the save directory, the paths that
    [open(filepath, 'wb')] can create, and the directories that exist
    or can be created. *)
Variable node_id : string.
Variable save_dir : string.
Variable openable : string -> bool.
Variable dir_ready : string -> bool.

(** The [FILE_INFO] branch: [file_info] is rebound first; the three
    subscripts of the progress lines raise on an absent key, before
    [chunks] is reset and the acknowledgement sent. *)
Definition on_file_info (st : session) (p : packet) : session * list event :=
  match pget "filename" p, pget "size" p, pget "chunks" p with
  | Some _, Some _, Some _ =>
      (mkSession (Some p) ∅, [SendAck (ack_packet node_id)])
  | _, _, _ => (mkSession (Some p) (chunks st), [ErrorProcessing])
  end.

(** The [FILE_DATA] branch: the chunk is stored once the index is read
    and hashable and the data decodes; the progress line after the store
    can still raise. *)
Definition on_file_data (st : session) (p : packet) : session * list event :=
  match pget "chunk" p, pget "data" p with
  | Some idx, Some (JStr data) =>
      match b64decode data, key_of idx with
      | Some chunk_data, Some k =>
          let st' := mkSession (file_info st) (<[k := chunk_data]> (chunks st)) in
          match info_get st "chunks" with
          | Some (JInt 0) | Some (JBool false) | Some JNull | Some (JStr _)
          | Some JArr | Some JDict | None => (st', [ErrorProcessing])
          | Some _ => (st', [])
          end
      | _, _ => (st, [ErrorProcessing])
      end
  | _, _ => (st, [ErrorProcessing])
  end.

(** The [FILE_COMPLETE] branch: the events and whether the loop is left
    ([break]). *)
Definition on_file_complete (st : session) (p : packet) : list event * bool :=
  match info_get st "filename" with
  | Some (JStr name) =>
      let filepath := path_join save_dir name in
      if openable filepath then
        match option_bind _ _ range_bound (info_get st "chunks") with
        | Some n =>
            let content := assemble (chunks st) (Z.to_nat n) 0 in
            let received_hash := md5_hexdigest content in
            match pget "hash" p with
            | Some h =>
                if jval_eqb (JStr received_hash) h then
                  ([WriteFile filepath content;
                    HashVerified filepath received_hash], true)
                else ([WriteFile filepath content; HashMismatch], true)
            | None => ([WriteFile filepath content; ErrorProcessing], false)
            end
        | None => ([WriteFile filepath []; ErrorProcessing], false)
        end
      else ([ErrorProcessing], false)
  | _ => ([ErrorProcessing], false)
  end.

(** One turn of the [while True] loop. *)
Definition receive_step (st : session) (item : rx_item)
  : session * list event * bool :=
  match item with
  | RxNothing => (st, [], false)
  | RxUndecodable => (st, [ErrorProcessing], false)
  | RxPacket p =>
      if type_is p "FILE_INFO" then
        let '(st', evs) := on_file_info st p in (st', evs, false)
      else if type_is p "FILE_DATA" && truthy (file_info st) then
        let '(st', evs) := on_file_data st p in (st', evs, false)
      else if type_is p "FILE_COMPLETE" && truthy (file_info st) then
        let '(evs, stop) := on_file_complete st p in (st, evs, stop)
      else (st, [], false)
  end.

(** The [while True] loop over the items received: the locals, the
    events in order, and whether [break] was reached ([false]: still
    listening when the items run out). *)
Fixpoint receive_loop (st : session) (items : list rx_item)
  : session * list event * bool :=
  match items with
  | [] => (st, [], false)
  | item :: items' =>
      let '(st1, evs, stop) := receive_step st item in
      if stop then (st1, evs, true)
      else
        let '(st2, evs', stop') := receive_loop st1 items' in
        (st2, evs ++ evs', stop')
  end.

(** [os.makedirs(save_dir, exist_ok=True)]: raises for the empty path
    and wherever the directory is neither there nor creatable. *)
Definition makedirs (d : string) : bool :=
  negb (String.eqb d EmptyString) && dir_ready d.

(** [receive_file]: [None] when [os.makedirs] raises, before anything
    is received; otherwise the loop from the initial locals. *)
Definition receive_file (items : list rx_item)
  : option (session * list event * bool) :=
  if makedirs save_dir then Some (receive_loop session_start items)
  else None.

End Receiver.

(** *** Vocabulary of the properties *)

(** The number of chunks the sender announces, its j-th chunk, and the
    data packets it builds from them. *)
Definition num_chunks_of (chunk_size : Z) (content : list byte) : Z :=
  ((Z.of_nat (List.length content) + chunk_size - 1) / chunk_size)%Z.

Definition chunk_at (chunk_size : Z) (content : list byte) (j : nat)
  : list byte :=
  firstn (Z.to_nat chunk_size) (skipn (j * Z.to_nat chunk_size) content).

Definition data_packets (chunk_size : Z) (content : list byte) : list packet :=
  map (fun j => file_data_packet (Z.of_nat j) (num_chunks_of chunk_size content)
                 (chunk_at chunk_size content j))
    (seq 0 (Z.to_nat (num_chunks_of chunk_size content))).

Definition is_file_info (item : rx_item) : bool :=
  match item with
  | RxPacket p => type_is p "FILE_INFO"
  | _ => false
  end.




Definition is_write (e : event) : bool :=
  match e with WriteFile _ _ => true | _ => false end.

End LoRaFileTransfer.

(** ** Spectrum scan ([spectrum_scan], [src/lora_test.py]) *)

Module SpectrumScanner.

Import PrimFloat.

Section Scan.

(** The reading [get_rssi_value()] returns at the k-th point of the
    sweep. *)
Variable get_rssi_value : nat -> Z.

(** The [while freq <= end_freq] loop entered for the k-th time with
    [fuel] turns left: [None] when the turns run out before the
    condition fails. Frequencies are Python floats: binary64, with the
    comparison and the rounded addition of the machine. *)
Fixpoint scan_loop (fuel : nat) (k : nat) (freq end_freq step : float)
  : option (list (float * Z)) :=
  match fuel with
  | O => None
  | S fuel' =>
      if leb freq end_freq then
        cons (freq, get_rssi_value k)
          <$> scan_loop fuel' (S k) (add freq step) end_freq step
      else Some []
  end.

(** What the call returns: [None] without touching the radio when the
    LoRa libraries are missing, the list of samples otherwise. *)
Inductive outcome : Type :=
| NotAvailable
| Samples (results : list (float * Z)).

Definition spectrum_scan (lora_available : bool) (fuel : nat)
    (start_freq end_freq step : float) : option outcome :=
  if lora_available then
    Samples <$> scan_loop fuel 0 start_freq end_freq step
  else Some NotAvailable.

(** [min(results, key=lambda x: x[1])] and [max(...)]: the first sample
    with the least, respectively greatest, reading. *)
Fixpoint clearest (results : list (float * Z)) : option (float * Z) :=
  match results with
  | [] => None
  | r :: rest =>
      match clearest rest with
      | Some m => if (snd r <=? snd m)%Z then Some r else Some m
      | None => Some r
      end
  end.

Fixpoint noisiest (results : list (float * Z)) : option (float * Z) :=
  match results with
  | [] => None
  | r :: rest =>
      match noisiest rest with
      | Some m => if (snd m <=? snd r)%Z then Some r else Some m
      | None => Some r
      end
  end.

(** The frequency of the k-th sample: [start_freq] after k additions of
    [step], each rounded. *)
Fixpoint freq_at (start_freq step : float) (k : nat) : float :=
  match k with
  | O => start_freq
  | S k' => add (freq_at start_freq step k') step
  end.

End Scan.

End SpectrumScanner.

(** ** Serving mode requests in sequence ([src/pi_responder.py]) *)

Module ModeSession.

Import ModeScheduler.

(** The globals after one operation has been served alone: from its
    beginning to its end no other request and no pass of a loop runs. *)
Definition serve (g : globals) (o : op) : globals := run g (body_of g o).

(** Operations served one at a time, each alone. *)
Definition serve_all (g : globals) (ops : list op) : globals :=
  fold_left serve ops g.

(** The schedule that serves one operation alone, from an empty
    pool. *)
Definition alone (g : globals) (o : op) : list action :=
  Arrive o :: repeat (Step 0) (List.length (body_of g o)).

(** The passes, out of those listed, that found the module. *)
Definition with_module (passes : list bool) : Z :=
  Z.of_nat (List.length (List.filter (fun present => present) passes)).

(** The [beacons_sent] field of the reply to [lora_beacon_stop]. *)
Definition reported_beacons (g : globals) : option Z :=
  match snd (lora_beacon_stop g) with
  | Some r => beacons_sent r
  | None => None
  end.

End ModeSession.

(** ** Command exchanges on the serial line
    ([lora_status], [api_lora_status]) *)

Module LineSession.

Import LineMode.

(** Successive calls of [lora_send_cmd], first to last. *)
Fixpoint send_cmds (cmds : list string) (p : port)
  : list (option string) * port :=
  match cmds with
  | [] => ([], p)
  | cmd :: cmds' =>
      let '(r, p1) := lora_send_cmd cmd p in
      let '(rs, p2) := send_cmds cmds' p1 in
      (r :: rs, p2)
  end.

Definition STATUS_QUERIES : list string :=
  ["sys get ver"; "sys get hweui"; "radio get freq"; "radio get sf"].

(** [lora_status] on the responder: the four answers, in the order
    version, hweui, frequency, spreading factor. *)
Definition lora_status (p : port) : list (option string) * port :=
  send_cmds STATUS_QUERIES p.

(** Truth value of an answer: [None] and the empty text are false. *)
Definition answered (r : option string) : bool :=
  match r with
  | Some (String _ _) => true
  | _ => false
  end.

(** [api_lora_status] on the controller: [None] is the reply
    {success: False, error: 'No response from module'}. *)
Definition api_lora_status (p : port) : option (list (option string)) * port :=
  let '(version, p1) := lora_send_cmd "sys get ver" p in
  if answered version then
    let '(rest, p2) := send_cmds (tl STATUS_QUERIES) p1 in
    (Some (version :: rest), p2)
  else (None, p1).

End LineSession.

(** ** More text helpers: [str.split], [bytes.fromhex], integer
    formatting *)

Module PyText.

(** [str.isspace] on a code point below 256. *)
Definition is_space (c : ascii) : bool :=
  let n := N_of_ascii c in
  ((9 <=? n) && (n <=? 13) || (28 <=? n) && (n <=? 32)
   || (n =? 133) || (n =? 160))%N.

Definition snoc (w : string) (c : ascii) : string :=
  w ++ String c EmptyString.

(** [s.split()]: the maximal runs of characters that are not spaces.
    [cur] is the run being read, if any. *)
Fixpoint split_from (cur : option string) (s : string) : list string :=
  match s with
  | EmptyString =>
      match cur with
      | Some w => [w]
      | None => []
      end
  | String c s' =>
      if is_space c then
        match cur with
        | Some w => w :: split_from None s'
        | None => split_from None s'
        end
      else
        split_from (Some (snoc (default EmptyString cur) c)) s'
  end.

Definition split (s : string) : list string := split_from None s.

(** A text without any space. *)
Fixpoint spaceless (s : string) : bool :=
  match s with
  | EmptyString => true
  | String c s' => negb (is_space c) && spaceless s'
  end.

(** The value of a hexadecimal digit, either case. *)
Definition hex_value (c : ascii) : option N :=
  let n := N_of_ascii c in
  (if (48 <=? n) && (n <=? 57) then Some (n - 48)
   else if (97 <=? n) && (n <=? 102) then Some (n - 87)
   else if (65 <=? n) && (n <=? 70) then Some (n - 55)
   else None)%N.

(** The ASCII spaces [bytes.fromhex] skips between two bytes. *)
Definition is_ascii_space (c : ascii) : bool :=
  let n := N_of_ascii c in
  ((9 <=? n) && (n <=? 13) || (n =? 32))%N.

(** [bytes.fromhex]; [None] when it raises [ValueError]. *)
Fixpoint fromhex (s : string) : option (list byte) :=
  match s with
  | EmptyString => Some []
  | String c s' =>
      if is_ascii_space c then fromhex s'
      else
        match hex_value c, s' with
        | Some top, String d s'' =>
            match hex_value d with
            | Some bot => cons (byte_of_N (16 * top + bot)) <$> fromhex s''
            | None => None
            end
        | _, _ => None
        end
  end.

(** [str(n)] for an integer. *)
Definition decimal (z : Z) : string :=
  DecimalString.NilZero.string_of_int (Z.to_int z).

Fixpoint zeros (n : nat) : string :=
  match n with
  | O => EmptyString
  | S n' => String "0" (zeros n')
  end.

(** Reading a run of decimal digits back, leading zeros allowed. *)
Definition parse_digits (s : string) : option Z :=
  Z.of_uint <$> DecimalString.NilEmpty.uint_of_string s.

(** [f"{z:0{width}d}"]: zeros are filled in after the sign, up to
    [width] characters in all. *)
Definition format_0d (width : nat) (z : Z) : string :=
  let digits := decimal (Z.abs z) in
  if (z <? 0)%Z then
    String "-" (zeros (width - 1 - String.length digits) ++ digits)
  else zeros (width - String.length digits) ++ digits.

End PyText.

(** ** Line-mode receive, echo and beacon passes
    ([lora_receive], [run_lora_echo], [run_lora_beacon],
    [src/pi_responder.py]) *)

Module LineReceive.

Import LineMode PyText.

Section Decode.

(** [bytes.decode('utf-8', errors='replace')]; the decoder itself is
    [utf8_decode_replace]. *)
Variable decode_replace : list byte -> pystr.

(** The [decoded] field: the text of the payload, or the hexadecimal
    text itself when [bytes.fromhex] raises. *)
Definition decode_hex (hex_data : string) : pystr :=
  match fromhex hex_data with
  | Some bs => decode_replace bs
  | None => text hex_data
  end.

Inductive receive_reply : Type :=
| NotAvailable
| NotAcknowledged (initial : string)
| Received (hex_data : string) (decoded : pystr)
| TimedOut.

(** What one read of the wait loop amounts to. *)
Inductive line_kind : Type :=
| Payload (hex_data : string)
| RadioError
| Noise.

Definition classify (data : string) : line_kind :=
  if contains "radio_rx" data then
    match split data with
    | _ :: hex_data :: _ => Payload hex_data
    | _ => Noise
    end
  else if contains "radio_err" data then RadioError
  else Noise.

(** The wait loop of [lora_receive], for the [polls] reads that fit
    before the deadline. *)
Fixpoint poll (polls : nat) (p : port) : receive_reply * port :=
  match polls with
  | O => (TimedOut, p)
  | S polls' =>
      let '(data, p1) := read p in
      match classify data with
      | Payload hex_data => (Received hex_data (decode_hex hex_data), p1)
      | RadioError => (TimedOut, p1)
      | Noise => poll polls' p1
      end
  end.

(** [lora_receive] with an integer [timeout_ms]. *)
Definition lora_receive (timeout_ms : Z) (polls : nat) (p : port)
  : receive_reply * port :=
  let '(ser, p1) := get_lora p in
  if ser then
    let '(initial, p2) := read (write ("radio rx " ++ decimal timeout_ms) p1) in
    if contains "ok" (lower initial) then poll polls p2
    else (NotAcknowledged initial, p2)
  else (NotAvailable, p1).



End Decode.

(** The message of the beacon numbered [count]. *)
Definition beacon_message (count : Z) : string :=
  "BEACON" ++ format_0d 4 count.

(** One turn of the [run_lora_beacon] loop: the counter afterwards, and
    the message and status printed when a module is there. *)
Definition beacon_pass (count : Z) (p : port)
  : Z * option (string * bool) * port :=
  let '(ser, p1) := get_lora p in
  if ser then
    let count' := (count + 1)%Z in
    let msg := beacon_message count' in
    let p2 := write ("radio tx " ++ hex (encode msg)) p1 in
    let '(response, p3) := read p2 in
    let '(extra, p4) := read p3 in
    let success :=
      contains "ok" (lower response) || contains "radio_tx_ok" (lower extra) in
    (count', Some (msg, success), p4)
  else (count, None, p1).

End LineReceive.

(** ** Packet delivery test ([api_lora_test],
    [src/laptop_controller.py]) *)

Module PacketTest.

Import PyText.

(** What the serial exchange of one packet gives: an exception, or the
    two texts read. *)
Inductive attempt : Type :=
| Raised
| Answered (result : option string) (extra : string).

Definition packet_message (i : nat) : string :=
  "PKT" ++ format_0d 3 (Z.of_nat i).

Record tally : Type := mkTally {
  sent : Z;
  confirmed : Z;
  results : list (nat * bool)
}.

Definition attempt_ok (a : attempt) : bool :=
  match a with
  | Raised => false
  | Answered result extra =>
      contains "ok" (lower (default "" result))
      || contains "radio_tx_ok" (lower extra)
  end.

(** The body of [for i in range(packet_count)]. *)
Definition test_step (t : tally) (i : nat) (a : attempt) : tally :=
  match a with
  | Raised => mkTally (sent t) (confirmed t) (results t ++ [(i, false)])
  | Answered _ _ =>
      mkTally (sent t + 1)
        (if attempt_ok a then confirmed t + 1 else confirmed t)
        (results t ++ [(i, attempt_ok a)])
  end.

Fixpoint test_loop (t : tally) (i : nat) (attempts : list attempt) : tally :=
  match attempts with
  | [] => t
  | a :: attempts' => test_loop (test_step t i a) (S i) attempts'
  end.

(** [api_lora_test] for [packet_count] = the number of attempts. The
    two figures are the values before they are rounded to one decimal. *)
Definition api_lora_test (attempts : list attempt) : tally :=
  test_loop (mkTally 0 0 []) 0 attempts.

Definition success_rate (t : tally) : Q :=
  if (0 <? sent t)%Z
  then (inject_Z (confirmed t) / inject_Z (sent t) * 100)%Q
  else 0%Q.

Definition packet_loss (t : tally) : Q := (100 - success_rate t)%Q.

(** The success flag written to the results log. *)
Definition logged_success (t : tally) : bool := (0 <? confirmed t)%Z.

(** The number of attempts that raised. *)
Fixpoint raised (attempts : list attempt) : Z :=
  match attempts with
  | [] => 0
  | Raised :: attempts' => 1 + raised attempts'
  | Answered _ _ :: attempts' => raised attempts'
  end.

End PacketTest.



(** ** Ping packets, the responder, and the node calls behind a probe
    ([run_ping], [run_pong], [receive_packet], [src/lora_test.py]) *)

Module PingPong.

Import LoRaNode LoRaPing.

Fixpoint padding (n : nat) : string :=
  match n with
  | O => EmptyString
  | S n' => String "X" (padding n')
  end.

(** The packet [run_ping] builds for probe [seq]; [now] is the value of
    the ["time"] field as the other side decodes it. *)
Definition ping_packet (node_id target : string) (seq : Z) (now : jval)
    (size : Z) : packet :=
  [("type", JStr "PING"); ("from", JStr node_id); ("to", JStr target);
   ("seq", JInt seq); ("time", now);
   ("data", JStr (padding (Z.to_nat (size - 20))))].

(** What [run_pong] sends for a decoded object: a pong for a PING that
    has its ["from"], ["seq"] and ["time"] fields, nothing otherwise
    (a failing subscript is swallowed by the bare [except]). *)
Definition pong_reply (node_id : string) (ping : packet) : option packet :=
  if type_is ping "PING" then
    match pget "from" ping, pget "seq" ping, pget "time" ping with
    | Some src, Some seq, Some t =>
        Some [("type", JStr "PONG"); ("from", JStr node_id); ("to", src);
              ("seq", seq); ("ping_time", t)]
    | _, _, _ => None
    end
  else None.

(** A session from [node_a] in which every probe, numbered from
    [first] on, is transmitted, reaches the responder [node_b] and gets
    the responder's answer back: one probe per triple of timestamp,
    measured time and signal strength. *)
Fixpoint answered_session (node_a node_b target : string) (size : Z)
    (first : Z) (answers : list (jval * PrimFloat.float * option Z))
  : list probe :=
  match answers with
  | [] => []
  | (now, rtt, rssi) :: answers' =>
      match pong_reply node_b (ping_packet node_a target first now size) with
      | Some pong => TxOk (Decoded pong rtt rssi)
      | None => TxOk NoResponse
      end
      :: answered_session node_a node_b target size (first + 1) answers'
  end.

(** What the hardware does during one [receive_packet]. *)
Inductive rx_outcome : Type :=
| RxTimeout
| RxRaises
| RxDone (payload : list byte) (rssi : Z) (snr : Q).

(** The [data] returned: the decoded text, or the payload list itself
    when it is not valid UTF-8. *)
Inductive rx_data : Type :=
| Text (s : string)
| PayloadList (payload : list byte).

Section Node.

(** [bytes.decode('utf-8')] ([None] when it raises) and [json.loads]
    followed by the check that the value is an object ([None] when
    either fails). *)
Variable utf8_decode : list byte -> option string.
Variable json_loads : string -> option packet.

(** [receive_packet]: data, rssi, snr. *)
Definition receive_packet (lora : option transceiver) (hw : rx_outcome)
  : option rx_data * option Z * option Q :=
  match lora with
  | None => (None, Some (-50), Some 10%Q)
  | Some _ =>
      match hw with
      | RxDone payload rssi snr =>
          (Some match utf8_decode payload with
                | Some s => Text s
                | None => PayloadList payload
                end,
           Some rssi, Some snr)
      | RxTimeout | RxRaises => (None, None, None)
      end
  end.

(** Truth value of the data returned. *)
Definition has_data (d : option rx_data) : bool :=
  match d with
  | Some (Text (String _ _)) | Some (PayloadList (_ :: _)) => true
  | _ => false
  end.

(** How [run_ping] reads the two node calls of one probe. *)
Definition probe_of (sent_ok : bool)
    (rx : option rx_data * option Z * option Q) (rtt : PrimFloat.float)
  : probe :=
  if sent_ok then
    let '(response, rssi, _) := rx in
    if has_data response then
      match response with
      | Some (Text s) =>
          match json_loads s with
          | Some pong => TxOk (Decoded pong rtt rssi)
          | None => TxOk Undecodable
          end
      | _ => TxOk Undecodable
      end
    else TxOk NoResponse
  else TxFailed.

(** The inputs of one probe: what is sent, what the hardware does on
    transmit and on receive, and the time measured. *)
Record probe_input : Type := mkProbeInput {
  data : payload_arg;
  tx_hw : tx_outcome;
  rx_hw : rx_outcome;
  rtt : PrimFloat.float
}.

Definition node_probe (lora : option transceiver) (i : probe_input) : probe :=
  probe_of (fst (send_packet lora (data i) (tx_hw i)))
    (receive_packet lora (rx_hw i)) (rtt i).

(** The radio outcomes of a [send_file] on this node. *)
Definition node_link (lora : option transceiver) (info : payload_arg)
    (info_hw : tx_outcome) (ack_hw : rx_outcome)
    (chunk_hw : Z -> tx_outcome) (chunk : Z -> payload_arg)
  : LoRaFileTransfer.link :=
  LoRaFileTransfer.mkLink
    (fst (send_packet lora info info_hw))
    (has_data (fst (fst (receive_packet lora ack_hw))))
    (fun i => fst (send_packet lora (chunk i) (chunk_hw i))).

End Node.

End PingPong.

(** ** Vocabulary for sequences of data packets
    ([receive_file], [src/lora_test.py]) *)

Module FileSession.

Import LoRaFileTransfer.

(** Data packets as the receiver gets them, one per index and chunk. *)
Definition data_items (total : Z) (ds : list (Z * list byte)) : list rx_item :=
  map (fun d => RxPacket (file_data_packet (fst d) total (snd d))) ds.

(** The chunk of the last packet with index [i], if there is one. *)
Fixpoint last_for (i : Z) (ds : list (Z * list byte)) : option (list byte) :=
  match ds with
  | [] => None
  | (j, c) :: ds' =>
      match last_for i ds' with
      | Some c' => Some c'
      | None => if (i =? j)%Z then Some c else None
      end
  end.


End FileSession.



(** ** The receiver over whole sessions ([receive_file],
    [src/lora_test.py]) *)

Module FileReception.

Import Codec LoRaFileTransfer FileSession.

(** The [chunks] dict after the data packets [ds] have been stored on
    top of [m], in order. *)
Definition store_all (ds : list (Z * list byte)) (m : gmap pykey (list byte))
  : gmap pykey (list byte) :=
  fold_left (fun m d => <[KInt (fst d) := snd d]> m) ds m.

(** For each index below [total], in order, the chunk of the last data
    packet with this index; nothing for an index that never came. *)
Definition assembled (total : Z) (ds : list (Z * list byte)) : list byte :=
  concat (map (fun j => default [] (last_for (Z.of_nat j) ds))
            (seq 0 (Z.to_nat total))).

(** An announcement with the three fields the receiver prints. *)
Definition announces (item : rx_item) : bool :=
  match item with
  | RxPacket p =>
      type_is p "FILE_INFO"
      && match pget "filename" p, pget "size" p, pget "chunks" p with
         | Some _, Some _, Some _ => true
         | _, _, _ => false
         end
  | _ => false
  end.

Definition is_ack (e : event) : bool :=
  match e with SendAck _ => true | _ => false end.

Definition is_complete (item : rx_item) : bool :=
  match item with
  | RxPacket p => type_is p "FILE_COMPLETE"
  | _ => false
  end.

Fixpoint count_where {A : Type} (f : A -> bool) (xs : list A) : nat :=
  match xs with
  | [] => 0
  | x :: xs' => (if f x then 1 else 0) + count_where f xs'
  end.

End FileReception.

(** ** Whole transfers: what can reach the receiver between the
    announcement and the completion packet *)

Module FileDelivery.

Import Codec LoRaFileTransfer.

(** One turn of the receive loop during a transfer: a timeout, data
    that [json.loads] rejects, a decoded object of another kind, or a
    data packet with any index, total and chunk. *)
Inductive delivery : Type :=
| Quiet
| Garbled
| Stray (p : packet)
| Data (index total : Z) (chunk : list byte).

Definition item_of (d : delivery) : rx_item :=
  match d with
  | Quiet => RxNothing
  | Garbled => RxUndecodable
  | Stray p => RxPacket p
  | Data i t c => RxPacket (file_data_packet i t c)
  end.

(** A stray object is of none of the three kinds the receiver acts
    on. *)
Definition admissible (d : delivery) : bool :=
  match d with
  | Stray p =>
      negb (type_is p "FILE_INFO") && negb (type_is p "FILE_DATA")
      && negb (type_is p "FILE_COMPLETE")
  | _ => true
  end.

(** Total and chunk of the last data packet with index [j]. *)
Fixpoint last_data (j : Z) (ds : list delivery) : option (Z * list byte) :=
  match ds with
  | [] => None
  | d :: ds' =>
      match last_data j ds' with
      | Some tc => Some tc
      | None =>
          match d with
          | Data i t c => if (j =? i)%Z then Some (t, c) else None
          | _ => None
          end
      end
  end.

(** The last data packet with index [j], as the receiver decodes it. *)
Definition last_packet (j : Z) (ds : list delivery) : option packet :=
  match last_data j ds with
  | Some (t, c) => Some (file_data_packet j t c)
  | None => None
  end.

(** Index and chunk of the data packets, in order of arrival. *)
Fixpoint chunks_of (ds : list delivery) : list (Z * list byte) :=
  match ds with
  | [] => []
  | Data i _ c :: ds' => (i, c) :: chunks_of ds'
  | _ :: ds' => chunks_of ds'
  end.

Definition is_error (e : event) : bool :=
  match e with ErrorProcessing => true | _ => false end.

(** The events other than the error lines. *)
Definition outcome_events (evs : list event) : list event :=
  List.filter (fun e => negb (is_error e)) evs.

End FileDelivery.



(** * Properties *)

(** ** Mode control *)

Module ModeSchedulerFacts.

Import ModeScheduler.

(** *** One at a time *)




(** *** Threads *)













(** C8. Calling start_beacon while the beacon flag is set answers
    success with the text "Already running" and executes no statement:
    the counter and both flags are as before. The same holds for
    start_echo while the echo flag is set. *)
Theorem start_while_running_is_noop (g : globals) (req : request) :
  (lora_beacon_active g = true ->
     lora_beacon_start g req
       = ([], Some (mkResponse true (Text "Already running") None))
     /\ run g (fst (lora_beacon_start g req)) = g)
  /\ (lora_echo_active g = true ->
      lora_echo_start g
        = ([], Some (mkResponse true (Text "Already running") None))
      /\ run g (fst (lora_echo_start g)) = g).
Proof.
  split; intros Hactive.
  - unfold lora_beacon_start. rewrite Hactive. split; reflexivity.
  - unfold lora_echo_start. rewrite Hactive. split; reflexivity.
Qed.

Lemma start_while_running_is_noop_witness :
  (lora_beacon_start (mkGlobals true false 7) (JsonObject (Some (JInt 2)))
     = ([], Some (mkResponse true (Text "Already running") None))
   /\ run (mkGlobals true false 7)
        (fst (lora_beacon_start (mkGlobals true false 7)
                (JsonObject (Some (JInt 2)))))
      = mkGlobals true false 7)
  /\ (lora_echo_start (mkGlobals false true 7)
       = ([], Some (mkResponse true (Text "Already running") None))
     /\ run (mkGlobals false true 7)
          (fst (lora_echo_start (mkGlobals false true 7)))
        = mkGlobals false true 7).
Proof.
  split.
  - apply (start_while_running_is_noop (mkGlobals true false 7)
             (JsonObject (Some (JInt 2)))).
    reflexivity.
  - apply (start_while_running_is_noop (mkGlobals false true 7) NotJson).
    reflexivity.
Defined.

End ModeSchedulerFacts.

(** ** Line-mode send *)

Module LineModeFacts.

Import LineMode.






End LineModeFacts.

(** ** Register-mode send *)

Module LoRaNodeFacts.

Import LoRaNode.

(** C6, as the code has it. With a radio whose registers can be written,
    the payload handed to the radio is the first 255 bytes of the
    encoded data; it never exceeds 255 bytes, and it is the whole
    encoded data exactly when that has at most 255 bytes: longer data
    loses its tail. *)
Theorem send_packet_writes_first_255 (r : transceiver) (data : payload_arg)
    (hw : tx_outcome) :
  hw <> TxRaises ->
  let bs := written (snd (send_packet (Some r) data hw)) in
  bs = firstn 255 (encoded data)
  /\ (List.length bs <= 255)%nat
  /\ (bs = encoded data <-> (List.length (encoded data) <= 255)%nat).
Proof.
  intros Hhw. cbn zeta.
  assert (Hbs : written (snd (send_packet (Some r) data hw))
                = firstn 255 (encoded data)).
  { destruct hw; [reflexivity | reflexivity | contradiction]. }
  rewrite Hbs. split; [reflexivity|]. split.
  - apply firstn_le_length.
  - split.
    + intros Heq. rewrite <- Heq. apply firstn_le_length.
    + intros Hlen. apply firstn_all2. exact Hlen.
Qed.

Lemma send_packet_writes_first_255_witness :
  written (snd (send_packet (Some (mkTransceiver SLEEP [])) (Str "PING") TxDone))
    = firstn 255 (encoded (Str "PING")).
Proof.
  assert (Hhw : TxDone <> TxRaises) by discriminate.
  destruct (send_packet_writes_first_255
              (mkTransceiver SLEEP []) (Str "PING") TxDone Hhw) as [Hbs _].
  exact Hbs.
Defined.

(** C6 as stated fails: of a 256-byte payload only 255 bytes reach the
    radio, and the call still returns true. *)
Lemma send_packet_drops_byte_256 :
  let data := Bytes (repeat x41 256) in
  let '(sent_ok, after) := send_packet (Some (mkTransceiver SLEEP [])) data TxDone in
  sent_ok = true
  /\ written after <> encoded data
  /\ List.length (written after) = 255%nat
  /\ List.length (encoded data) = 256%nat.
Proof.
  cbn zeta. cbn [send_packet].
  split; [reflexivity|]. split; [|split; vm_compute; reflexivity].
  intros Heq. apply (f_equal (@List.length byte)) in Heq.
  vm_compute in Heq. discriminate.
Qed.

End LoRaNodeFacts.

(** ** Ping statistics *)

Module LoRaPingFacts.

Import LoRaPing.

Lemma update_stats_counts (st : stats) (rtt : PrimFloat.float)
    (rssi : option Z) :
  sent (update_stats st rtt rssi) = sent st
  /\ received (update_stats st rtt rssi) = received st + 1
  /\ lost (update_stats st rtt rssi) = lost st.
Proof. destruct rssi; cbn; auto. Qed.

Lemma ping_step_excess (seq : Z) (st : stats) (o : probe) :
  accepted_without_from seq o = false ->
  excess (fst (ping_step seq st o)) = excess st + tx_failures [o]
  /\ sent (fst (ping_step seq st o)) = sent st + 1 - tx_failures [o].
Proof.
  unfold excess. destruct o as [|[| |pong rtt rssi]]; cbn; intros Hp; try lia.
  destruct (valid_pong pong seq); cbn in *; [|lia].
  destruct (pget "from" pong); [|discriminate]. cbn.
  destruct (update_stats_counts (add_sent st) rtt rssi) as (-> & -> & ->).
  cbn. lia.
Qed.

Lemma tx_failures_cons (o : probe) (os : list probe) :
  tx_failures (o :: os) = tx_failures [o] + tx_failures os.
Proof. destruct o; cbn; lia. Qed.

Lemma ping_loop_excess (os : list probe) :
  forall seq st,
    all_replies_printable seq os = true ->
    excess (fst (ping_loop seq st os)) = excess st + tx_failures os
    /\ sent (fst (ping_loop seq st os))
       = sent st + Z.of_nat (List.length os) - tx_failures os.
Proof.
  induction os as [|o os IH]; intros seq st Hp.
  - cbn. lia.
  - cbn [all_replies_printable] in Hp. apply andb_true_iff in Hp as [Ho Hos].
    apply negb_true_iff in Ho.
    destruct (ping_step_excess seq st o Ho) as [He Hs].
    cbn [ping_loop]. destruct (ping_step seq st o) as [st1 l] eqn:E1.
    specialize (IH (seq + 1) st1 Hos).
    destruct (ping_loop (seq + 1) st1 os) as [st2 ls] eqn:E2.
    cbn [fst] in *. rewrite tx_failures_cons.
    rewrite length_cons, Nat2Z.inj_succ. lia.
Qed.

(** C3, as the code has it (sessions in which every accepted reply
    carries a "from" field). A probe counts as sent only when its
    transmission succeeded, and as lost also when it failed, so
    received + lost = sent + failed transmissions, and
    sent = probes - failed transmissions. The loss figure is
    lost/sent x 100 whenever sent > 0. When no transmission failed,
    sent = received + lost and the figure equals
    (sent - received)/sent x 100. *)
Theorem ping_accounting (os : list probe) :
  all_replies_printable 1 os = true ->
  let st := fst (run_ping os) in
  received st + lost st = sent st + tx_failures os
  /\ sent st = Z.of_nat (List.length os) - tx_failures os
  /\ (0 < sent st ->
      loss_percent st
        = Some (inject_Z (lost st) / inject_Z (sent st) * 100)%Q)
  /\ (tx_failures os = 0 ->
      sent st = received st + lost st
      /\ (0 < sent st ->
          loss_percent st
            = Some (inject_Z (sent st - received st)
                    / inject_Z (sent st) * 100)%Q)).
Proof.
  intros Hp. cbn zeta. unfold run_ping.
  destruct (ping_loop_excess os 1 reset_stats Hp) as [He Hs].
  set (st := fst (ping_loop 1 reset_stats os)) in *.
  unfold excess in He. cbn in He, Hs.
  assert (Hpct : 0 < sent st ->
                 loss_percent st
                 = Some (inject_Z (lost st) / inject_Z (sent st) * 100)%Q).
  { intros Hpos. unfold loss_percent.
    destruct (0 <? sent st)%Z eqn:E; [reflexivity|].
    apply Z.ltb_ge in E. lia. }
  repeat split; try lia; try exact Hpct.
  intros Hpos. rewrite (Hpct Hpos).
  replace (sent st - received st) with (lost st) by lia. reflexivity.
Qed.

Lemma ping_accounting_witness :
  let os :=
    [TxOk (Decoded [("type", JStr "PONG"); ("from", JStr "NODE_B");
                    ("to", JStr "NODE_A"); ("seq", JInt 1)]
             (float_of_Z 120) (Some (-50)%Z));
     TxOk NoResponse] in
  let st := fst (run_ping os) in
  sent st = 2 /\ received st + lost st = sent st + tx_failures os.
Proof.
  cbn zeta.
  pose proof (ping_accounting
                [TxOk (Decoded [("type", JStr "PONG"); ("from", JStr "NODE_B");
                                ("to", JStr "NODE_A"); ("seq", JInt 1)]
                         (float_of_Z 120) (Some (-50)%Z));
                 TxOk NoResponse] eq_refl) as [Hbal [Hsent _]].
  split; [exact Hsent | exact Hbal].
Defined.

(** C3 as stated fails: after one failed transmission and one answered
    probe, sent = 1, received = 1 and lost = 1, and the loss figure is
    100 although (sent - received)/sent x 100 is 0. *)
Lemma ping_failed_transmission_unbalanced :
  let os :=
    [TxFailed;
     TxOk (Decoded [("type", JStr "PONG"); ("from", JStr "NODE_B");
                    ("to", JStr "NODE_A"); ("seq", JInt 2)]
             (float_of_Z 120) (Some (-50)%Z))] in
  let st := fst (run_ping os) in
  sent st = 1 /\ received st = 1 /\ lost st = 1
  /\ sent st <> received st + lost st
  /\ loss_percent st = Some (1 / 1 * 100)%Q
  /\ ~ (1 / 1 * 100 == inject_Z (sent st - received st) / inject_Z (sent st) * 100)%Q.
Proof.
  cbn zeta. repeat split; try reflexivity; vm_compute; discriminate.
Qed.

End LoRaPingFacts.

(** ** Spectrum sweep *)

Module SpectrumScannerFacts.

Import PrimFloat SpectrumScanner.

Section Sweep.

Variable rssi : nat -> Z.
Variables end_freq step : float.

Lemma freq_at_shift (freq : float) (j : nat) :
  freq_at (add freq step) step j = freq_at freq step (S j).
Proof.
  induction j as [|j IH]; [reflexivity|].
  cbn [freq_at] in *. rewrite IH. reflexivity.
Qed.

(** A frequency that the step does not change never passes the end of
    the band. *)
Lemma scan_loop_stuck (fuel : nat) :
  forall k freq,
    add freq step = freq -> leb freq end_freq = true ->
    scan_loop rssi fuel k freq end_freq step = None.
Proof.
  induction fuel as [|fuel IH]; intros k freq Hsame Hle; [reflexivity|].
  cbn [scan_loop]. rewrite Hle, Hsame.
  rewrite IH; [reflexivity | exact Hsame | exact Hle].
Qed.

(** What a finished loop returns. *)
Lemma scan_loop_result (fuel : nat) :
  forall k freq r,
    scan_loop rssi fuel k freq end_freq step = Some r ->
    exists n,
      r = map (fun j => (freq_at freq step j, rssi (k + j)%nat)) (seq 0 n)
      /\ (forall j, (j < n)%nat -> leb (freq_at freq step j) end_freq = true)
      /\ leb (freq_at freq step n) end_freq = false
      /\ (n < fuel)%nat.
Proof.
  induction fuel as [|fuel IH]; intros k freq r Hrun; [discriminate|].
  cbn [scan_loop] in Hrun.
  destruct (leb freq end_freq) eqn:E.
  - destruct (scan_loop rssi fuel (S k) (add freq step) end_freq step)
      as [r'|] eqn:Erest; [|discriminate].
    cbn in Hrun. injection Hrun as <-.
    destruct (IH (S k) (add freq step) r' Erest)
      as (n & -> & Hin & Hout & Hfuel).
    exists (S n). split; [|split; [|split]].
    + cbn [seq map freq_at]. rewrite Nat.add_0_r. f_equal.
      rewrite <- seq_shift, map_map. apply map_ext. intros j.
      rewrite freq_at_shift. do 2 f_equal. lia.
    + intros [|j] Hj; [exact E|].
      rewrite <- freq_at_shift. apply Hin. lia.
    + rewrite <- freq_at_shift. exact Hout.
    + lia.
  - injection Hrun as <-. exists 0%nat.
    split; [reflexivity|]. split; [intros j Hj; lia|].
    split; [exact E|lia].
Qed.

(** Once some frequency of the sequence is beyond the end of the band,
    that many turns and one more are enough. *)
Lemma scan_loop_finishes (n : nat) :
  forall k freq,
    leb (freq_at freq step n) end_freq = false ->
    exists r, scan_loop rssi (S n) k freq end_freq step = Some r.
Proof.
  induction n as [|n IH]; intros k freq Hout.
  - cbn [freq_at] in Hout. cbn [scan_loop]. rewrite Hout. eauto.
  - remember (S n) as fuel eqn:Hfuel. cbn [scan_loop].
    destruct (leb freq end_freq); [|eauto].
    subst fuel. rewrite <- freq_at_shift in Hout.
    destruct (IH (S k) (add freq step) Hout) as [r Hr].
    rewrite Hr. cbn. eauto.
Qed.

End Sweep.

(** C9, as the code has it. With the radio present and for every
    start, end and step, the sweep goes through the frequencies
    f0 = start, f1 = f0 + step, f2 = f1 + step, ..., each sum rounded as
    the machine rounds it. Whenever it ends, it has returned the
    samples taken at f0 .. f(n-1), in order, where f0 .. f(n-1) do not
    exceed the end and fn is the first that does: fn is not sampled. It
    ends, for some number of turns, exactly when some frequency of the
    sequence exceeds the end. It never ends when the start does not
    exceed the end and adding the step leaves the start as it is. *)
Theorem sweep_ends_when_frequency_passes_end (rssi : nat -> Z)
    (start_freq end_freq step : float) :
  (forall fuel r,
      spectrum_scan rssi true fuel start_freq end_freq step = Some r ->
      exists n,
        r = Samples (map (fun k => (freq_at start_freq step k, rssi k))
                       (seq 0 n))
        /\ (forall k, (k < n)%nat ->
              leb (freq_at start_freq step k) end_freq = true)
        /\ leb (freq_at start_freq step n) end_freq = false)
  /\ ((exists fuel r,
         spectrum_scan rssi true fuel start_freq end_freq step = Some r)
      <-> exists n, leb (freq_at start_freq step n) end_freq = false)
  /\ (add start_freq step = start_freq ->
      leb start_freq end_freq = true ->
      forall fuel,
        spectrum_scan rssi true fuel start_freq end_freq step = None).
Proof.
  assert (Hres : forall fuel r,
      spectrum_scan rssi true fuel start_freq end_freq step = Some r ->
      exists n,
        r = Samples (map (fun k => (freq_at start_freq step k, rssi k))
                       (seq 0 n))
        /\ (forall k, (k < n)%nat ->
              leb (freq_at start_freq step k) end_freq = true)
        /\ leb (freq_at start_freq step n) end_freq = false).
  { intros fuel r Hrun. unfold spectrum_scan in Hrun.
    destruct (scan_loop rssi fuel 0 start_freq end_freq step) as [l|] eqn:E;
      [|discriminate].
    cbn in Hrun. injection Hrun as <-.
    destruct (scan_loop_result rssi end_freq step fuel 0 start_freq l E)
      as (n & -> & Hin & Hout & _).
    exists n. split; [reflexivity|]. split; assumption. }
  split; [exact Hres|]. split; [split|].
  - intros (fuel & r & Hrun).
    destruct (Hres fuel r Hrun) as (n & _ & _ & Hout). eauto.
  - intros (n & Hout).
    destruct (scan_loop_finishes rssi end_freq step n 0 start_freq Hout)
      as [l Hl].
    exists (S n), (Samples l). unfold spectrum_scan. rewrite Hl. reflexivity.
  - intros Hsame Hle fuel. unfold spectrum_scan.
    rewrite (scan_loop_stuck rssi end_freq step fuel 0 start_freq Hsame Hle).
    reflexivity.
Qed.

Lemma sweep_ends_when_frequency_passes_end_witness :
  exists fuel r,
    spectrum_scan (fun _ => (-100)%Z) true fuel 902%float 905%float 1%float
    = Some r.
Proof.
  apply (proj1 (proj2 (sweep_ends_when_frequency_passes_end
                         (fun _ => (-100)%Z) 902%float 905%float 1%float))).
  exists 4%nat. vm_compute. reflexivity.
Defined.

(** C9 as stated fails: with step 0 the sweep from 902 to 928 never
    ends, whatever number of turns it is given. *)
Lemma sweep_with_zero_step_never_ends :
  ~ exists fuel r,
      spectrum_scan (fun _ => (-100)%Z) true fuel 902%float 928%float 0%float
      = Some r.
Proof.
  intros (fuel & r & Hrun). unfold spectrum_scan in Hrun.
  rewrite scan_loop_stuck in Hrun; [discriminate| |]; vm_compute; reflexivity.
Qed.

(** Nor does a positive step make it end: the step 1e-14 (the float
    0x1.6849b86a12b9bp-47) is lost when it is added to 902. *)
Lemma sweep_with_tiny_step_never_ends :
  ltb 0%float 0x1.6849b86a12b9bp-47%float = true
  /\ ~ exists fuel r,
         spectrum_scan (fun _ => (-100)%Z) true fuel 902%float 928%float
           0x1.6849b86a12b9bp-47%float
         = Some r.
Proof.
  split; [vm_compute; reflexivity|].
  intros (fuel & r & Hrun). unfold spectrum_scan in Hrun.
  rewrite scan_loop_stuck in Hrun; [discriminate| |]; vm_compute; reflexivity.
Qed.

(** The sums drift: from 902 to 902.6 (0x1.c34cccccccccdp+9) in steps
    of 0.1 (0x1.999999999999ap-4) the sweep takes six samples, the
    seventh frequency being just above 902.6. *)
Lemma sweep_drift_drops_a_sample :
  exists results,
    spectrum_scan (fun _ => (-100)%Z) true 10 902%float
      0x1.c34cccccccccdp+9%float 0x1.999999999999ap-4%float
    = Some (Samples results)
    /\ List.length results = 6%nat.
Proof. eexists. split; vm_compute; reflexivity. Qed.

End SpectrumScannerFacts.

(** ** Transfer encoding *)

Module CodecFacts.

Import Codec.

Lemma check_below_spec bound P :
  check_below bound P = true -> forall n, (N.to_nat n < bound)%nat -> P n = true.
Proof.
  unfold check_below. intros H n Hn.
  rewrite forallb_forall in H. apply H.
  rewrite <- (N2Nat.id n). apply in_map. apply in_seq. lia.
Qed.

Lemma byte_of_to_N (b : byte) : byte_of_N (Byte.to_N b) = b.
Proof.
  unfold byte_of_N. pose proof (Byte.to_N_bounded b) as Hb.
  rewrite N.mod_small by lia. rewrite Byte.of_to_N. reflexivity.
Qed.

Lemma check_bytes_spec P : check_bytes P = true -> forall b, P b = true.
Proof.
  intros H b. rewrite <- (byte_of_to_N b).
  apply (check_below_spec 256 _ H).
  pose proof (Byte.to_N_bounded b). lia.
Qed.

Lemma check_byte_pairs_spec P :
  check_byte_pairs P = true -> forall a b, P a b = true.
Proof.
  intros H a b. apply check_bytes_spec.
  exact (check_bytes_spec (fun a => check_bytes (P a)) H a).
Qed.


Ltac by_enumeration :=
  first [apply check_byte_pairs_spec | apply check_bytes_spec];
  vm_compute; reflexivity.

(** Alphabet facts, by enumeration of the 64 sextets. *)
Lemma b64_char_facts (n : N) :
  (n < 64)%N ->
  b64_value (b64_char n) = Some n
  /\ Ascii.eqb (b64_char n) pad_char = false
  /\ (N_of_ascii (b64_char n) <? 128)%N = true.
Proof.
  intros Hn.
  assert (H : check_below 64 (fun n =>
              match b64_value (b64_char n) with
              | Some m => N.eqb m n
              | None => false
              end
              && negb (Ascii.eqb (b64_char n) pad_char)
              && (N_of_ascii (b64_char n) <? 128)%N) = true)
    by (vm_compute; reflexivity).
  apply check_below_spec with (n := n) in H; [|lia].
  apply andb_true_iff in H as [H H3]. apply andb_true_iff in H as [H1 H2].
  apply negb_true_iff in H2.
  destruct (b64_value (b64_char n)) as [m|]; [|discriminate].
  apply N.eqb_eq in H1. subst m. auto.
Qed.

Lemma sextets_small :
  (forall a, (sextet1 a < 64)%N)
  /\ (forall a b, (sextet2 a b < 64)%N)
  /\ (forall b c, (sextet3 b c < 64)%N)
  /\ (forall c, (sextet4 c < 64)%N).
Proof.
  repeat split; intros; apply N.ltb_lt.
  - revert a. by_enumeration.
  - revert a b. by_enumeration.
  - revert b c. by_enumeration.
  - revert c. by_enumeration.
Qed.

(** The three bytes rebuilt by the decoder from the sextets. *)
Lemma rebuild_first (a b : byte) :
  byte_of_N (N.lor (N.shiftl (sextet1 a) 2) (N.shiftr (sextet2 a b) 4)) = a.
Proof.
  apply Byte.byte_dec_bl. revert a b. by_enumeration.
Qed.

Lemma pending_after_second (a b : byte) :
  N.land (sextet2 a b) 15 = N.shiftr (Byte.to_N b) 4.
Proof.
  apply N.eqb_eq. revert a b. by_enumeration.
Qed.

Lemma rebuild_second (b c : byte) :
  byte_of_N (N.lor (N.shiftl (N.shiftr (Byte.to_N b) 4) 4)
                   (N.shiftr (sextet3 b c) 2)) = b.
Proof.
  apply Byte.byte_dec_bl. revert b c. by_enumeration.
Qed.

Lemma rebuild_third (b c : byte) :
  byte_of_N (N.lor (N.shiftl (N.land (sextet3 b c) 3) 6) (sextet4 c)) = c.
Proof.
  apply Byte.byte_dec_bl. revert b c. by_enumeration.
Qed.

(** One decoder step on an alphabet character, by position in the quad. *)
Lemma a2b_step (n : N) (s : string) (quad_pos leftchar pads : N) :
  (n < 64)%N ->
  a2b_base64 (String (b64_char n) s) quad_pos leftchar pads
  = if (quad_pos =? 0)%N then a2b_base64 s 1%N n 0%N
    else if (quad_pos =? 1)%N then
      cons (byte_of_N (N.lor (N.shiftl leftchar 2) (N.shiftr n 4)))
        <$> a2b_base64 s 2%N (N.land n 15) 0%N
    else if (quad_pos =? 2)%N then
      cons (byte_of_N (N.lor (N.shiftl leftchar 4) (N.shiftr n 2)))
        <$> a2b_base64 s 3%N (N.land n 3) 0%N
    else
      cons (byte_of_N (N.lor (N.shiftl leftchar 6) n))
        <$> a2b_base64 s 0%N 0%N 0%N.
Proof.
  intros Hn. destruct (b64_char_facts n Hn) as (Hval & Hpad & _).
  cbn [a2b_base64]. rewrite Hpad, Hval. reflexivity.
Qed.

Lemma a2b_group (a b c : byte) (s : string) :
  a2b_base64
    (String (b64_char (sextet1 a)) (String (b64_char (sextet2 a b))
       (String (b64_char (sextet3 b c)) (String (b64_char (sextet4 c)) s))))
    0%N 0%N 0%N
  = cons a <$> (cons b <$> (cons c <$> a2b_base64 s 0%N 0%N 0%N)).
Proof.
  destruct sextets_small as (H1 & H2 & H3 & H4).
  rewrite (a2b_step _ _ 0 _ _ (H1 a)). cbn [N.eqb].
  rewrite (a2b_step _ _ 1 _ _ (H2 a b)). cbn [N.eqb Pos.eqb]. rewrite rebuild_first.
  rewrite (a2b_step _ _ 2 _ _ (H3 b c)). cbn [N.eqb Pos.eqb].
  rewrite pending_after_second, rebuild_second.
  rewrite (a2b_step _ _ 3 _ _ (H4 c)). cbn [N.eqb Pos.eqb].
  rewrite rebuild_third. reflexivity.
Qed.

Lemma list_ind3 {A} (P : list A -> Prop) :
  P [] -> (forall a, P [a]) -> (forall a b, P [a; b]) ->
  (forall a b c rest, P rest -> P (a :: b :: c :: rest)) ->
  forall l, P l.
Proof.
  intros H0 H1 H2 H3.
  fix IH 1. intros [|a [|b [|c rest]]];
    [exact H0 | apply H1 | apply H2 | apply H3; apply IH].
Qed.

Lemma a2b_encode (bs : list byte) :
  a2b_base64 (b64encode bs) 0%N 0%N 0%N = Some bs.
Proof.
  destruct sextets_small as (H1 & H2 & H3 & H4).
  induction bs as [|a|a b|a b c rest IH] using list_ind3.
  - reflexivity.
  - cbn [b64encode].
    rewrite (a2b_step _ _ 0 _ _ (H1 a)). cbn [N.eqb].
    rewrite (a2b_step _ _ 1 _ _ (H2 a x00)). cbn [N.eqb Pos.eqb].
    rewrite rebuild_first. reflexivity.
  - cbn [b64encode].
    rewrite (a2b_step _ _ 0 _ _ (H1 a)). cbn [N.eqb].
    rewrite (a2b_step _ _ 1 _ _ (H2 a b)). cbn [N.eqb Pos.eqb].
    rewrite rebuild_first.
    rewrite (a2b_step _ _ 2 _ _ (H3 b x00)). cbn [N.eqb Pos.eqb].
    rewrite pending_after_second, rebuild_second. reflexivity.
  - cbn [b64encode]. rewrite a2b_group, IH. reflexivity.
Qed.

Lemma encode_is_ascii (bs : list byte) : is_ascii_text (b64encode bs) = true.
Proof.
  destruct sextets_small as (H1 & H2 & H3 & H4).
  pose proof (fun n Hn => proj2 (proj2 (b64_char_facts n Hn))) as Hc.
  induction bs as [|a|a b|a b c rest IH] using list_ind3;
    cbn [b64encode is_ascii_text];
    rewrite ?Hc by auto; auto.
Qed.

Lemma b64_round_trip (bs : list byte) : b64decode (b64encode bs) = Some bs.
Proof. unfold b64decode. rewrite encode_is_ascii. apply a2b_encode. Qed.

(** The digest agrees with the reference values of RFC 1321. *)
Example md5_hexdigest_abc :
  md5_hexdigest (encode "abc") = "900150983cd24fb0d6963f7d28e17f72"
  /\ md5_hexdigest [] = "d41d8cd98f00b204e9800998ecf8427e".
Proof. split; vm_compute; reflexivity. Qed.

End CodecFacts.

(** ** File transfer *)

Module LoRaFileTransferFacts.

Import Codec LoRaFileTransfer CodecFacts.

(** *** Sender *)

Lemma chunk_at_skip (chunk_size : Z) (f : list byte) (j : nat) :
  chunk_at chunk_size (skipn (Z.to_nat chunk_size) f) j
  = chunk_at chunk_size f (S j).
Proof.
  unfold chunk_at. rewrite skipn_skipn. do 2 f_equal. lia.
Qed.

Lemma send_chunks_packets (chunk_size : Z) (l : link) (total : Z) (n : nat) :
  0 <= chunk_size ->
  forall (i : nat) (f : list byte) (sent : Z),
  exists sent',
    send_chunks chunk_size l total n (Z.of_nat i) f sent
    = (map (fun j => file_data_packet (Z.of_nat (i + j)) total
                       (chunk_at chunk_size f j))
         (seq 0 n),
       Some sent').
Proof.
  intros Hcs. induction n as [|n IH]; intros i f sent.
  - exists sent. reflexivity.
  - cbn [send_chunks]. unfold f_read.
    destruct (chunk_size <? -1)%Z eqn:E; [apply Z.ltb_lt in E; lia|].
    destruct (chunk_size =? -1)%Z eqn:E1; [apply Z.eqb_eq in E1; lia|].
    replace (Z.of_nat i + 1) with (Z.of_nat (S i)) by lia.
    destruct (IH (S i) (skipn (Z.to_nat chunk_size) f)
                (if chunk_sent l (Z.of_nat i) then sent + 1 else sent))
      as [sent' Hrest].
    rewrite Hrest. exists sent'. f_equal.
    cbn [seq map]. f_equal.
    + unfold chunk_at. rewrite Nat.add_0_r. reflexivity.
    + rewrite <- seq_shift, map_map. apply map_ext. intros j.
      rewrite chunk_at_skip. do 2 f_equal. lia.
Qed.

Lemma send_file_frames (node_id filename dest : string) (chunk_size : Z)
    (content : list byte) (l : link) :
  0 < chunk_size -> info_sent l = true -> ack_received l = true ->
  send_file node_id chunk_size (Some content) filename dest l
  = (file_info_packet node_id dest filename (Z.of_nat (List.length content))
       (num_chunks_of chunk_size content) (md5_hexdigest content)
     :: data_packets chunk_size content
     ++ [file_complete_packet filename (md5_hexdigest content)],
     Returned true).
Proof.
  intros Hcs Hinfo Hack. unfold send_file.
  destruct (chunk_size =? 0)%Z eqn:E; [apply Z.eqb_eq in E; lia|].
  rewrite Hinfo, Hack. cbn [negb].
  fold (num_chunks_of chunk_size content).
  destruct (send_chunks_packets chunk_size l
              (num_chunks_of chunk_size content)
              (Z.to_nat (num_chunks_of chunk_size content))
              ltac:(lia) 0%nat content 0) as [sent' Hp].
  change (Z.of_nat 0) with 0 in Hp. rewrite Hp. reflexivity.
Qed.

(** The chunks, in index order, make up the file. *)
Lemma chunks_cover (c : nat) (n : nat) :
  forall f : list byte,
    (List.length f <= n * c)%nat ->
    concat (map (fun j => firstn c (skipn (j * c) f)) (seq 0 n)) = f.
Proof.
  induction n as [|n IH]; intros f Hlen.
  - destruct f; [reflexivity|cbn in Hlen; lia].
  - cbn [seq map concat]. change (0 * c)%nat with 0%nat. cbn [skipn].
    rewrite <- seq_shift, map_map.
    transitivity (firstn c f ++ skipn c f); [|apply firstn_skipn].
    f_equal.
    etransitivity; [|apply (IH (skipn c f)); rewrite length_skipn; lia].
    f_equal. apply map_ext. intros j. rewrite skipn_skipn.
    do 2 f_equal. lia.
Qed.

Lemma num_chunks_enough (chunk_size : Z) (content : list byte) :
  0 < chunk_size ->
  (List.length content
   <= Z.to_nat (num_chunks_of chunk_size content) * Z.to_nat chunk_size)%nat.
Proof.
  intros Hcs. unfold num_chunks_of.
  set (len := Z.of_nat (List.length content)).
  pose proof (Z.mul_succ_div_gt (len + chunk_size - 1) chunk_size Hcs) as Hgt.
  assert (Hnn : 0 <= (len + chunk_size - 1) / chunk_size)
    by (apply Z.div_pos; lia).
  nia.
Qed.

Lemma chunks_make_content (chunk_size : Z) (content : list byte) :
  0 < chunk_size ->
  concat (map (chunk_at chunk_size content)
            (seq 0 (Z.to_nat (num_chunks_of chunk_size content))))
  = content.
Proof.
  intros Hcs. apply chunks_cover. apply num_chunks_enough. exact Hcs.
Qed.

(** *** Receiver *)

Section ReceiverFacts.

Variable node_id : string.
Variable save_dir : string.
Variable openable : string -> bool.

Lemma step_file_info (st : session) (node dest filename file_hash : string)
    (filesize total : Z) :
  let info := file_info_packet node dest filename filesize total file_hash in
  receive_step node_id save_dir openable st (RxPacket info)
  = (mkSession (Some info) ∅, [SendAck (ack_packet node_id)], false).
Proof. reflexivity. Qed.

Lemma step_file_data (info : packet) (m : gmap pykey (list byte))
    (i total total' : Z) (chunk : list byte) :
  truthy (Some info) = true ->
  pget "chunks" info = Some (JInt total) -> total <> 0 ->
  receive_step node_id save_dir openable (mkSession (Some info) m)
    (RxPacket (file_data_packet i total' chunk))
  = (mkSession (Some info) (<[KInt i := chunk]> m), [], false).
Proof.
  intros Htruthy Hchunks Hne.
  unfold receive_step, file_data_packet.
  change (type_is _ "FILE_INFO") with false.
  change (type_is _ "FILE_DATA") with true.
  cbn [file_info andb]. rewrite Htruthy.
  unfold on_file_data.
  change (pget "chunk" _) with (Some (JInt i)).
  change (pget "data" _) with (Some (JStr (b64encode chunk))).
  cbn match. rewrite b64_round_trip. cbn [key_of file_info chunks].
  unfold info_get. cbn [file_info]. rewrite Hchunks.
  destruct total; [contradiction|reflexivity|reflexivity].
Qed.

Lemma step_file_complete (info : packet) (m : gmap pykey (list byte))
    (name name' h : string) (total : Z) :
  truthy (Some info) = true ->
  pget "filename" info = Some (JStr name) ->
  pget "chunks" info = Some (JInt total) ->
  openable (path_join save_dir name) = true ->
  let st := mkSession (Some info) m in
  let content := assemble m (Z.to_nat total) 0 in
  receive_step node_id save_dir openable st (RxPacket (file_complete_packet name' h))
  = (st,
     [WriteFile (path_join save_dir name) content;
      if String.eqb (md5_hexdigest content) h
      then HashVerified (path_join save_dir name) (md5_hexdigest content)
      else HashMismatch],
     true).
Proof.
  intros Htruthy Hname Hchunks Hopen. cbn zeta.
  unfold receive_step, file_complete_packet.
  change (type_is _ "FILE_INFO") with false.
  change (type_is _ "FILE_DATA") with false.
  change (type_is _ "FILE_COMPLETE") with true.
  cbn [file_info andb]. rewrite Htruthy.
  unfold on_file_complete, info_get. cbn [file_info chunks].
  rewrite Hname, Hopen, Hchunks. cbn [option_bind range_bound].
  change (pget "hash" _) with (Some (JStr h)). cbn match. cbn [jval_eqb].
  destruct (String.eqb _ h); reflexivity.
Qed.

Lemma loop_app (xs ys : list rx_item) :
  forall st st1 evs1,
    receive_loop node_id save_dir openable st xs = (st1, evs1, false) ->
    receive_loop node_id save_dir openable st (xs ++ ys)
    = let '(st2, evs2, stop) :=
        receive_loop node_id save_dir openable st1 ys in
       (st2, evs1 ++ evs2, stop).
Proof.
  induction xs as [|x xs IH]; intros st st1 evs1 Hrun.
  - cbn in Hrun. injection Hrun as <- <-. cbn [app].
    destruct (receive_loop _ _ _ st ys) as [[st2 evs2] stop]. reflexivity.
  - cbn [app receive_loop] in *.
    destruct (receive_step _ _ _ st x) as [[sta evsa] stopa].
    destruct stopa; [discriminate|].
    destruct (receive_loop _ _ _ sta xs) as [[stb evsb] stopb] eqn:E.
    injection Hrun as <- <- ->.
    rewrite (IH sta stb evsb E).
    destruct (receive_loop _ _ _ stb ys) as [[st2 evs2] stop].
    rewrite app_assoc. reflexivity.
Qed.


Lemma step_before_file_info (item : rx_item) :
  is_file_info item = false ->
  receive_step node_id save_dir openable session_start item
  = (session_start,
     match item with RxUndecodable => [ErrorProcessing] | _ => [] end,
     false).
Proof.
  destruct item as [| |p]; cbn [is_file_info]; intros Hty; try reflexivity.
  unfold receive_step. rewrite Hty. cbn [session_start file_info truthy].
  rewrite !andb_false_r. reflexivity.
Qed.

Lemma step_keeps_invariant (st : session) (item : rx_item) :
  (file_info st = None -> chunks st = ∅) ->
  file_info (fst (fst (receive_step node_id save_dir openable st item))) = None ->
  chunks (fst (fst (receive_step node_id save_dir openable st item))) = ∅.
Proof.
  intros Hinv. destruct item as [| |p]; cbn [receive_step fst]; try exact Hinv.
  destruct (type_is p "FILE_INFO").
  - unfold on_file_info.
    destruct (pget "filename" p), (pget "size" p), (pget "chunks" p);
      cbn; discriminate.
  - destruct (type_is p "FILE_DATA" && truthy (file_info st)) eqn:Edata.
    + apply andb_true_iff in Edata as [_ Htruthy].
      destruct (file_info st) as [fi|] eqn:Efi; [|discriminate].
      destruct (on_file_data st p) as [st' evs] eqn:Eon. cbn [fst].
      assert (Hsame : file_info st' = file_info st).
      { unfold on_file_data in Eon.
        repeat match type of Eon with
               | context [match ?x with _ => _ end] => destruct x
               end;
          injection Eon as <- _; reflexivity. }
      rewrite Hsame, Efi. discriminate.
    + destruct (type_is p "FILE_COMPLETE" && truthy (file_info st)).
      * destruct (on_file_complete _ _ st p). exact Hinv.
      * exact Hinv.
Qed.

End ReceiverFacts.


(** C10. A turn of the receive loop keeps the invariant "no FileInfo
    seen implies no chunk stored"; and as long as no FileInfo has
    arrived, whatever else arrives (FileData and FileComplete
    included) leaves the session as it started, writes no file and sends
    nothing, and the loop keeps listening: the only events are the error
    lines for data that does not decode. (When the save directory
    cannot be made the call raises before the loop, and nothing is
    stored either.) *)
Theorem nothing_stored_before_file_info (node_id save_dir : string)
    (openable dir_ready : string -> bool) :
  (forall st item,
      (file_info st = None -> chunks st = ∅) ->
      file_info (fst (fst (receive_step node_id save_dir openable st item)))
        = None ->
      chunks (fst (fst (receive_step node_id save_dir openable st item))) = ∅)
  /\ (forall items,
        forallb (fun item => negb (is_file_info item)) items = true ->
        exists evs,
          receive_file node_id save_dir openable dir_ready items
            = (if makedirs dir_ready save_dir
               then Some (session_start, evs, false)
               else None)
          /\ receive_loop node_id save_dir openable session_start items
             = (session_start, evs, false)
          /\ Forall (fun e => e = ErrorProcessing) evs).
Proof.
  split; [apply step_keeps_invariant|].
  intros items Hno.
  assert (Hloop : exists evs,
             receive_loop node_id save_dir openable session_start items
             = (session_start, evs, false)
             /\ Forall (fun e => e = ErrorProcessing) evs).
  { induction items as [|item items IH].
    - exists []. split; [reflexivity | constructor].
    - cbn [forallb] in Hno. apply andb_true_iff in Hno as [Hitem Hrest].
      apply negb_true_iff in Hitem.
      destruct (IH Hrest) as (evs & Hrun & Hevs).
      cbn [receive_loop].
      rewrite (step_before_file_info node_id save_dir openable item Hitem).
      rewrite Hrun. eexists. split; [reflexivity|].
      apply Forall_app. split; [|exact Hevs].
      destruct item; repeat constructor. }
  destruct Hloop as (evs & Hrun & Hevs). exists evs.
  split; [|split; [exact Hrun|exact Hevs]].
  unfold receive_file. rewrite Hrun. reflexivity.
Qed.

Lemma nothing_stored_before_file_info_witness :
  exists evs,
    receive_file "NODE_B" "./received" (fun _ => true) (fun _ => true)
      [RxPacket (file_data_packet 0 1 [x61]);
       RxPacket (file_complete_packet "a.txt" "0cc175b9c0f1b6a831c399e269772661");
       RxNothing; RxUndecodable]
      = Some (session_start, evs, false)
    /\ Forall (fun e => e = ErrorProcessing) evs.
Proof.
  destruct (proj2 (nothing_stored_before_file_info "NODE_B" "./received"
                     (fun _ => true) (fun _ => true))
              [RxPacket (file_data_packet 0 1 [x61]);
               RxPacket (file_complete_packet "a.txt"
                           "0cc175b9c0f1b6a831c399e269772661");
               RxNothing; RxUndecodable]
              eq_refl) as (evs & Hfile & _ & Hevs).
  exists evs. split; [exact Hfile|exact Hevs].
Defined.




(** C7. Sending a 1000-byte file with chunk size 200, once the
    announcement is sent and acknowledged, hands to the radio: the
    announcement (size 1000, 5 chunks, the digest of the file), then
    exactly five objects of type FILE_DATA with chunk indices
    0, 1, 2, 3, 4 in this order, each with total 5 and as data the
    base64 text of the next 200 bytes of the file, then one object of
    type FILE_COMPLETE whose hash is the digest of the 1000 bytes; and
    the call returns true. The five chunks have 200 bytes each, decode
    back from their base64 text, and together are the file. *)
Theorem send_1000_bytes_in_five_chunks (node_id filename dest : string)
    (content : list byte) (l : link) :
  List.length content = 1000%nat ->
  info_sent l = true -> ack_received l = true ->
  let chunk := fun i : nat => firstn 200 (skipn (200 * i) content) in
  send_file node_id 200 (Some content) filename dest l
  = ([("type", JStr "FILE_INFO"); ("from", JStr node_id); ("to", JStr dest);
      ("filename", JStr filename); ("size", JInt 1000); ("chunks", JInt 5);
      ("hash", JStr (md5_hexdigest content))]
     :: map (fun i : nat =>
               [("type", JStr "FILE_DATA"); ("chunk", JInt (Z.of_nat i));
                ("total", JInt 5); ("data", JStr (b64encode (chunk i)))])
          [0; 1; 2; 3; 4]%nat
     ++ [[("type", JStr "FILE_COMPLETE"); ("filename", JStr filename);
          ("hash", JStr (md5_hexdigest content))]],
     Returned true)
  /\ concat (map chunk [0; 1; 2; 3; 4]%nat) = content
  /\ forall i : nat, (i < 5)%nat ->
       List.length (chunk i) = 200%nat
       /\ b64decode (b64encode (chunk i)) = Some (chunk i).
Proof.
  intros Hlen Hinfo Hack. cbn zeta. split; [|split].
  - rewrite (send_file_frames node_id filename dest 200 content l
               ltac:(lia) Hinfo Hack).
    unfold data_packets, num_chunks_of. rewrite Hlen.
    change ((Z.of_nat 1000 + 200 - 1) / 200) with 5.
    change (Z.to_nat 5) with 5%nat. change (Z.of_nat 1000) with 1000.
    cbn [seq map]. unfold chunk_at. change (Z.to_nat 200) with 200%nat.
    reflexivity.
  - pose proof (chunks_cover 200 5 content ltac:(lia)) as Hcover.
    cbn [seq map] in Hcover. cbn [map].
    etransitivity; [|exact Hcover]. reflexivity.
  - intros i Hi. split; [|apply b64_round_trip].
    rewrite length_firstn, length_skipn. lia.
Qed.

Lemma send_1000_bytes_in_five_chunks_witness :
  send_file "NODE_A" 200 (Some (repeat x61 1000)) "a.bin" "NODE_B"
         (mkLink true true (fun _ => true))
  = ([("type", JStr "FILE_INFO"); ("from", JStr "NODE_A");
      ("to", JStr "NODE_B"); ("filename", JStr "a.bin");
      ("size", JInt 1000); ("chunks", JInt 5);
      ("hash", JStr "cabe45dcc9ae5b66ba86600cca6b8ba8")]
     :: map (fun i : Z =>
               [("type", JStr "FILE_DATA"); ("chunk", JInt i);
                ("total", JInt 5);
                ("data", JStr (b64encode (repeat x61 200)))])
          [0; 1; 2; 3; 4]
     ++ [[("type", JStr "FILE_COMPLETE"); ("filename", JStr "a.bin");
          ("hash", JStr "cabe45dcc9ae5b66ba86600cca6b8ba8")]],
     Returned true).
Proof.
  rewrite (proj1 (send_1000_bytes_in_five_chunks "NODE_A" "a.bin" "NODE_B"
                    (repeat x61 1000) (mkLink true true (fun _ => true))
                    eq_refl eq_refl eq_refl)).
  vm_compute. reflexivity.
Defined.

End LoRaFileTransferFacts.

(** ** Mode requests in sequence *)

Module ModeSessionFacts.

Import ModeScheduler ModeSession.

(** Serving alone is the schedule in which the operation arrives and
    then runs all its statements. *)
Lemma single_thread_trace (body : list instr) :
  forall g r,
    trace g [mkThread body r] (repeat (Step 0) (List.length body))
    = states_from g r body.
Proof.
  induction body as [|i body IH]; intros g r; [reflexivity|].
  cbn [List.length repeat trace act lookup list_lookup step_thread code reg
       states_from].
  destruct (exec g r i) as [g' r']. cbn [insert list_insert].
  rewrite IH. reflexivity.
Qed.

Lemma last_cons_default (d x : globals) (l : list globals) :
  default d (last (x :: l)) = default x (last l).
Proof.
  revert d x. induction l as [|y l IH]; intros d x; [reflexivity|].
  change (last (x :: y :: l)) with (last (y :: l)).
  rewrite (IH d y), (IH x y). reflexivity.
Qed.

Lemma run_from_last (body : list instr) :
  forall g r, run_from g r body = default g (last (states_from g r body)).
Proof.
  induction body as [|i body IH]; intros g r; [reflexivity|].
  cbn [run_from states_from]. destruct (exec g r i) as [g' r'].
  rewrite IH, last_cons_default. reflexivity.
Qed.

Lemma serve_is_uninterrupted (g : globals) (o : op) :
  serve g o = default g (last (g :: trace g [] (alone g o))).
Proof.
  unfold serve, run, alone. cbn [trace act app].
  rewrite single_thread_trace, run_from_last, !last_cons_default.
  reflexivity.
Qed.

Lemma passes_count (passes : list bool) :
  forall g, lora_beacon_active g = true ->
    serve_all g (map BeaconPass passes)
    = mkGlobals true (lora_echo_active g)
        (beacon_count g + with_module passes).
Proof.
  unfold with_module.
  induction passes as [|present passes IH]; intros [b e c] Hb;
    cbn in Hb; subst b.
  - cbn. f_equal. lia.
  - cbn [map serve_all fold_left].
    fold (serve_all (serve (mkGlobals true e c) (BeaconPass present))
            (map BeaconPass passes)).
    destruct present; cbn [List.filter List.length].
    + unfold serve at 1. cbn. rewrite IH by reflexivity. cbn. f_equal. lia.
    + unfold serve at 1. cbn. rewrite IH by reflexivity. reflexivity.
Qed.

Lemma passes_idle (passes : list bool) :
  forall g, lora_beacon_active g = false ->
    serve_all g (map BeaconPass passes) = g.
Proof.
  induction passes as [|present passes IH]; intros [b e c] Hb;
    cbn in Hb; subst b; [reflexivity|].
  cbn [map serve_all fold_left].
  fold (serve_all (serve (mkGlobals false e c) (BeaconPass present))
          (map BeaconPass passes)).
  unfold serve at 1. cbn. apply IH. reflexivity.
Qed.

(** X1. A start request served alone (nothing else runs between its
    beginning and its end), from a state with at most one mode active,
    ends in exactly the requested mode: start_beacon leaves the beacon
    flag set and the echo flag clear, with the counter reset to 0 unless
    the beacon was already running; start_echo leaves the echo flag set
    and the beacon flag clear, and keeps the counter. A start_beacon
    whose JSON body is not an object raises after the echo flag was
    cleared: neither mode is active afterwards. Served alone means the
    schedule in which the request arrives and then runs all its
    statements. *)
Theorem start_switches_mode (g : globals) (req : request) :
  exclusive g ->
  (req <> JsonOther ->
   serve g (StartBeacon req)
   = mkGlobals true false
       (if lora_beacon_active g then beacon_count g else 0))
  /\ serve g StartEcho = mkGlobals false true (beacon_count g)
  /\ (lora_beacon_active g = false ->
      serve g (StartBeacon JsonOther) = mkGlobals false false (beacon_count g)
      /\ snd (lora_beacon_start g JsonOther) = None)
  /\ (forall o, serve g o = default g (last (g :: trace g [] (alone g o)))).
Proof.
  intros Hex. split; [|split; [|split]]; [| | |apply serve_is_uninterrupted].
  - revert Hex. unfold exclusive, both_active. destruct g as [b e c]. cbn.
    intros Hex Hreq. destruct b; cbn in Hex.
    + subst e. reflexivity.
    + destruct req as [|[v|]|]; try reflexivity. contradiction.
  - revert Hex. unfold exclusive, both_active. destruct g as [b e c]. cbn.
    intros Hex. destruct e; [|reflexivity]. rewrite andb_true_r in Hex.
    subst b. reflexivity.
  - destruct g as [b e c]. cbn. intros ->. split; reflexivity.
Qed.

Lemma start_switches_mode_witness :
  serve (mkGlobals false true 12) (StartBeacon (JsonObject (Some (JInt 5))))
  = mkGlobals true false 0.
Proof.
  assert (Hex : exclusive (mkGlobals false true 12)) by reflexivity.
  assert (Hreq : JsonObject (Some (JInt 5)) <> JsonOther) by discriminate.
  exact (proj1 (start_switches_mode (mkGlobals false true 12)
                  (JsonObject (Some (JInt 5))) Hex) Hreq).
Defined.

(** X2. With the operations served one at a time, each alone: after a
    start_beacon that takes effect, the count reported by stop_beacon
    is the number of passes of the beacon loop since the start that
    found the module (a pass without a module sleeps and does not
    count); and once the beacon is stopped, further passes of the loop
    leave the count as it is. *)
Theorem stop_reports_passes_since_start (g : globals) (req : request)
    (passes later : list bool) :
  lora_beacon_active g = false -> req <> JsonOther ->
  let running := serve_all g (StartBeacon req :: map BeaconPass passes) in
  reported_beacons running = Some (with_module passes)
  /\ beacon_count
       (serve_all (serve running StopBeacon) (map BeaconPass later))
     = with_module passes.
Proof.
  intros Hidle Hreq. cbn zeta.
  assert (Hstart : serve g (StartBeacon req)
                   = mkGlobals true false 0).
  { destruct g as [b e c]. cbn in Hidle. subst b.
    destruct req as [|[v|]|]; try reflexivity. contradiction. }
  assert (Hrun : serve_all g (StartBeacon req :: map BeaconPass passes)
                 = mkGlobals true false (with_module passes)).
  { cbn [serve_all fold_left].
    fold (serve_all (serve g (StartBeacon req)) (map BeaconPass passes)).
    rewrite Hstart, passes_count by reflexivity. reflexivity. }
  rewrite Hrun. split; [reflexivity|].
  rewrite passes_idle; reflexivity.
Qed.

Lemma stop_reports_passes_since_start_witness :
  reported_beacons
    (serve_all (mkGlobals false true 40)
       (StartBeacon NotJson :: map BeaconPass [true; false; true; true]))
  = Some 3.
Proof.
  assert (Hreq : NotJson <> JsonOther) by discriminate.
  exact (proj1 (stop_reports_passes_since_start (mkGlobals false true 40)
                  NotJson [true; false; true; true] [] eq_refl Hreq)).
Defined.

End ModeSessionFacts.

(** ** Command exchanges on the serial line *)

Module LineSessionFacts.

Import LineMode LineSession.

Lemma send_cmds_opened (cmds : list string) :
  forall p,
    opened p = true ->
    send_cmds cmds p
    = (map (fun i => Some (nth i (rx p) "")) (seq 0 (List.length cmds)),
       mkPort (device_present p) true
         (skipn (List.length cmds) (rx p)) (tx p ++ cmds)).
Proof.
  induction cmds as [|cmd cmds IH]; intros [present o rxs txs] Hopen;
    cbn in Hopen; subst o.
  - cbn. rewrite app_nil_r. reflexivity.
  - cbn [send_cmds]. unfold lora_send_cmd, get_lora. cbn [opened].
    unfold read, write. cbn [rx tx device_present opened].
    rewrite IH by reflexivity. cbn [rx tx device_present opened length seq map].
    f_equal.
    + f_equal; [destruct rxs; reflexivity|].
      rewrite <- seq_shift, map_map. apply map_ext. intros i.
      destruct rxs; [destruct i|]; reflexivity.
    + f_equal.
      * destruct rxs; [rewrite !skipn_nil|]; reflexivity.
      * rewrite <- app_assoc. reflexivity.
Qed.

(** X3. On a line whose module is present but not yet opened, a run of
    commands writes "mac pause" once, before the first command, then the
    commands in order and nothing else; the read that follows the pause
    is dropped and the k-th command gets the (k+1)-th read as its
    answer. On a line already open nothing but the commands is written.
    Without a module nothing is written, every answer is absent, and the
    line is left as it was, so the next call tries to open it again. *)
Theorem commands_written_in_order (cmds : list string) (p : port) :
  cmds <> [] ->
  (device_present p = true -> opened p = false ->
   tx (snd (send_cmds cmds p)) = tx p ++ "mac pause" :: cmds
   /\ fst (send_cmds cmds p)
      = map (fun i => Some (nth (S i) (rx p) "")) (seq 0 (List.length cmds))
   /\ opened (snd (send_cmds cmds p)) = true)
  /\ (opened p = true -> tx (snd (send_cmds cmds p)) = tx p ++ cmds)
  /\ (device_present p = false -> opened p = false ->
      send_cmds cmds p = (map (fun _ => None) cmds, p)).
Proof.
  intros Hne. split; [|split].
  - intros Hpresent Hclosed.
    destruct cmds as [|cmd cmds]; [contradiction|].
    destruct p as [present o rxs txs]. cbn in Hpresent, Hclosed. subst.
    cbn [send_cmds]. unfold lora_send_cmd, get_lora.
    cbn [opened device_present]. unfold read, write.
    cbn [rx tx device_present opened snd fst].
    rewrite send_cmds_opened by reflexivity.
    cbn [fst snd tx rx opened length seq map]. split; [|split].
    + rewrite <- !app_assoc. reflexivity.
    + f_equal; [destruct rxs as [|? [|? ?]]; reflexivity|].
      rewrite <- seq_shift, map_map. apply map_ext. intros i.
      destruct rxs as [|? [|? ?]]; try reflexivity; destruct i; reflexivity.
    + reflexivity.
  - intros Hopen. rewrite send_cmds_opened by exact Hopen. reflexivity.
  - intros Habsent Hclosed. clear Hne.
    destruct p as [present o rxs txs]. cbn in Habsent, Hclosed. subst.
    induction cmds as [|cmd cmds IH]; [reflexivity|].
    cbn [send_cmds map]. unfold lora_send_cmd, get_lora.
    cbn [opened device_present]. rewrite IH. reflexivity.
Qed.

Lemma commands_written_in_order_witness :
  tx (snd (lora_status (mkPort true false
                          ["4294967245"; "RN2903 1.0.5"; "0004A30B"; "915000000"; "sf7"]
                          [])))
  = "mac pause" :: STATUS_QUERIES.
Proof.
  assert (Hne : STATUS_QUERIES <> []) by discriminate.
  exact (proj1 (proj1 (commands_written_in_order STATUS_QUERIES
                  (mkPort true false
                     ["4294967245"; "RN2903 1.0.5"; "0004A30B"; "915000000"; "sf7"]
                     []) Hne) eq_refl eq_refl)).
Defined.

(** X4. The controller's status check. With a module (a line already
    open, or one that the call opens: "mac pause" is written first and
    the read that follows it is dropped), the check reports the module
    exactly when the read that answers the version query is a non-empty
    text; then the four answers are that read and the next three, in
    order, and the four queries are written. When that read is empty no
    query after the version query is written. Without a module nothing
    is written and the check reports no module. *)
Theorem status_needs_version (p : port) :
  let pause := if opened p then [] else ["mac pause"] in
  let reads := if opened p then rx p else tl (rx p) in
  (opened p = true \/ device_present p = true ->
   (hd "" reads <> "" ->
    fst (api_lora_status p)
    = Some (map (fun i => Some (nth i reads "")) [0; 1; 2; 3]%nat)
    /\ tx (snd (api_lora_status p)) = tx p ++ pause ++ STATUS_QUERIES)
   /\ (hd "" reads = "" ->
       fst (api_lora_status p) = None
       /\ tx (snd (api_lora_status p)) = tx p ++ pause ++ ["sys get ver"]))
  /\ (opened p = false -> device_present p = false ->
      api_lora_status p = (None, p)).
Proof.
  cbn zeta. destruct p as [present o rxs txs]. cbn [opened device_present rx tx].
  split.
  - intros Hthere.
    assert (Hstep : lora_send_cmd "sys get ver" (mkPort present o rxs txs)
                    = (Some (hd "" (if o then rxs else tl rxs)),
                       mkPort (if o then present else true) true
                         (tl (if o then rxs else tl rxs))
                         (txs ++ (if o then [] else ["mac pause"])
                              ++ ["sys get ver"]))).
    { unfold lora_send_cmd, get_lora. cbn [opened device_present].
      destruct o.
      - unfold read, write. cbn [rx tx device_present opened]. reflexivity.
      - destruct Hthere as [Ho|Hp]; [discriminate|]. cbn in Hp. subst present.
        unfold read, write. cbn [rx tx device_present opened snd fst].
        rewrite <- app_assoc. reflexivity. }
    unfold api_lora_status. rewrite Hstep.
    set (reads := if o then rxs else tl rxs).
    split; intros Hfirst.
    + destruct reads as [|[|c v] reads']; cbn in Hfirst; try contradiction.
      cbn [hd answered tl].
      rewrite send_cmds_opened by reflexivity.
      cbn [fst snd tx rx]. split; [reflexivity|].
      rewrite <- !app_assoc. reflexivity.
    + destruct reads as [|[|c v] reads']; cbn in Hfirst; try discriminate;
        split; reflexivity.
  - intros -> ->. reflexivity.
Qed.

Lemma status_needs_version_witness :
  fst (api_lora_status
         (mkPort true false ["4294967245"; "RN2903 1.0.5"; "0004A30B"] []))
  = Some [Some "RN2903 1.0.5"; Some "0004A30B"; Some ""; Some ""]
  /\ tx (snd (api_lora_status
                (mkPort true false
                   ["4294967245"; "RN2903 1.0.5"; "0004A30B"] [])))
     = "mac pause" :: STATUS_QUERIES.
Proof.
  assert (Hfirst : hd "" (tl ["4294967245"; "RN2903 1.0.5"; "0004A30B"])
                   <> "") by discriminate.
  exact (proj1 (proj1 (status_needs_version
                         (mkPort true false
                            ["4294967245"; "RN2903 1.0.5"; "0004A30B"] []))
                  (or_intror eq_refl)) Hfirst).
Defined.

End LineSessionFacts.

(** ** Text helpers *)

Module PyTextFacts.

Import Codec CodecFacts PyText.

Lemma hex_digit_facts (k : N) :
  (k < 16)%N ->
  hex_value (hex_digit k) = Some k
  /\ is_ascii_space (hex_digit k) = false
  /\ is_space (hex_digit k) = false.
Proof.
  intros Hk.
  assert (H : check_below 16 (fun k =>
              match hex_value (hex_digit k) with
              | Some m => N.eqb m k
              | None => false
              end
              && negb (is_ascii_space (hex_digit k))
              && negb (is_space (hex_digit k))) = true)
    by (vm_compute; reflexivity).
  apply check_below_spec with (n := k) in H; [|lia].
  apply andb_true_iff in H as [H H3]. apply andb_true_iff in H as [H1 H2].
  apply negb_true_iff in H2, H3.
  destruct (hex_value (hex_digit k)) as [m|]; [|discriminate].
  apply N.eqb_eq in H1. subst m. auto.
Qed.

Lemma nibbles (b : byte) :
  (Byte.to_N b / 16 < 16)%N /\ (Byte.to_N b mod 16 < 16)%N
  /\ byte_of_N (16 * (Byte.to_N b / 16) + Byte.to_N b mod 16) = b.
Proof.
  pose proof (Byte.to_N_bounded b) as Hb. split; [|split].
  - apply N.Div0.div_lt_upper_bound. lia.
  - apply N.mod_lt. discriminate.
  - rewrite <- N.div_mod by discriminate. apply byte_of_to_N.
Qed.

(** X5. Hexadecimal text written with [bytes.hex] reads back with
    [bytes.fromhex] as the same bytes, exactly; the text has two
    characters per byte and no space. *)
Theorem fromhex_hex (bs : list byte) :
  fromhex (hex bs) = Some bs
  /\ String.length (hex bs) = (2 * List.length bs)%nat
  /\ spaceless (hex bs) = true.
Proof.
  induction bs as [|b bs (IH1 & IH2 & IH3)]; [repeat split|].
  destruct (nibbles b) as (Hhi & Hlo & Hb).
  destruct (hex_digit_facts _ Hhi) as (Hv1 & Ha1 & Hs1).
  destruct (hex_digit_facts _ Hlo) as (Hv2 & Ha2 & Hs2).
  cbn [hex]. unfold hex_of_byte. cbn zeta.
  change (String ?c1 (String ?c2 EmptyString) +:+ hex bs)
    with (String c1 (String c2 (hex bs))).
  split; [|split].
  - cbn [fromhex]. rewrite Ha1, Hv1, Hv2, IH1, Hb. reflexivity.
  - cbn [String.length]. rewrite IH2. cbn [List.length]. lia.
  - cbn [spaceless]. rewrite Hs1, Hs2, IH3. reflexivity.
Qed.

Lemma contains_at_start (needle rest : string) :
  contains needle (needle ++ rest) = true.
Proof.
  assert (H : String.prefix needle (needle ++ rest) = true).
  { induction needle as [|c needle IH]; [destruct rest; reflexivity|].
    simpl. destruct (ascii_dec c c); [exact IH | contradiction]. }
  destruct (needle ++ rest)%string; cbn [contains]; rewrite H; reflexivity.
Qed.

Lemma append_cons (c : ascii) (w s : string) :
  (String c w ++ s)%string = String c (w ++ s).
Proof. reflexivity. Qed.

Lemma append_empty (w : string) : (w ++ "")%string = w.
Proof.
  induction w as [|c w IH]; [reflexivity|].
  rewrite append_cons, IH. reflexivity.
Qed.

Lemma append_snoc (w : string) (c : ascii) (h : string) :
  (snoc w c ++ h)%string = (w ++ String c h)%string.
Proof.
  unfold snoc. induction w as [|d w IH]; [reflexivity|].
  rewrite !append_cons, IH. reflexivity.
Qed.

Lemma split_from_word (h : string) :
  forall w, spaceless h = true -> split_from (Some w) h = [(w ++ h)%string].
Proof.
  induction h as [|c h IH]; intros w Hh.
  - cbn [split_from]. rewrite append_empty. reflexivity.
  - cbn [spaceless] in Hh. apply andb_true_iff in Hh as [Hc Hh].
    apply negb_true_iff in Hc. cbn [split_from]. rewrite Hc.
    cbn [default]. rewrite (IH _ Hh), append_snoc. reflexivity.
Qed.

Lemma split_from_run (w1 : string) :
  forall cur s,
    spaceless w1 = true -> w1 <> "" ->
    split_from cur (w1 ++ s)
    = split_from (Some (default "" cur ++ w1)%string) s.
Proof.
  induction w1 as [|c w1 IH]; intros cur s Hw Hne; [contradiction|].
  cbn [spaceless] in Hw. apply andb_true_iff in Hw as [Hc Hw].
  apply negb_true_iff in Hc.
  rewrite append_cons. cbn [split_from]. rewrite Hc.
  destruct w1 as [|d w1].
  - reflexivity.
  - rewrite (IH _ s Hw) by discriminate.
    change (default "" (Some ?x)) with x.
    rewrite append_snoc. reflexivity.
Qed.

(** A line made of the token "radio_rx", two spaces and a non-empty
    text without spaces splits into exactly these two parts. *)
Lemma split_radio_rx (h : string) :
  spaceless h = true -> h <> "" ->
  split ("radio_rx  " ++ h) = ["radio_rx"; h].
Proof.
  intros Hh Hne. unfold split.
  change ("radio_rx  " ++ h)%string
    with ("radio_rx" ++ String " " (String " " h))%string.
  rewrite split_from_run by (reflexivity || discriminate).
  cbn [default]. change ("" ++ "radio_rx")%string with "radio_rx".
  cbn [split_from]. change (is_space " ") with true. cbn match.
  rewrite <- (append_empty h) at 1.
  rewrite split_from_run by assumption.
  reflexivity.
Qed.

End PyTextFacts.

(** ** Number formatting *)

Module FormatFacts.

Import PyText.

Lemma parse_zeros (k : nat) (s : string) :
  parse_digits (zeros k ++ s) = parse_digits s.
Proof.
  induction k as [|k IH]; [reflexivity|].
  cbn [zeros]. change (String "0" (zeros k) ++ s)%string
    with (String "0" (zeros k ++ s)%string).
  rewrite <- IH. unfold parse_digits.
  cbn [DecimalString.NilEmpty.uint_of_string].
  destruct (DecimalString.NilEmpty.uint_of_string (zeros k ++ s));
    reflexivity.
Qed.

Lemma parse_decimal (z : Z) : 0 <= z -> parse_digits (decimal z) = Some z.
Proof.
  intros Hz. unfold parse_digits, decimal.
  pose proof (DecimalZ.of_to z) as Hback.
  destruct z as [|p|p]; [reflexivity| |lia].
  cbn [Z.to_int] in *. cbn [DecimalString.NilZero.string_of_int].
  pose proof (DecimalPos.Unsigned.to_uint_nonnil p) as Hnn.
  unfold DecimalString.NilZero.string_of_uint.
  destruct (Pos.to_uint p) as [|d|d|d|d|d|d|d|d|d|d] eqn:E;
    try contradiction;
    rewrite DecimalString.NilEmpty.usu; cbn [fmap option_fmap option_map];
    f_equal; exact Hback.
Qed.

Lemma parse_format (width : nat) (z : Z) :
  0 <= z -> parse_digits (format_0d width z) = Some z.
Proof.
  intros Hz. unfold format_0d.
  destruct (z <? 0)%Z eqn:E; [apply Z.ltb_lt in E; lia|].
  rewrite parse_zeros, Z.abs_eq by exact Hz. apply parse_decimal. exact Hz.
Qed.

End FormatFacts.

(** ** Line-mode receive, echo and beacon *)

Module LineReceiveFacts.

Import LineMode PyText LineReceive PyTextFacts FormatFacts.

Lemma spaceless_snoc (w : string) (c : ascii) :
  spaceless w = true -> is_space c = false ->
  spaceless (snoc w c) = true /\ snoc w c <> "".
Proof.
  intros Hw Hc. unfold snoc. induction w as [|d w IH].
  - change ("" ++ String c "")%string with (String c "").
    cbn [spaceless]. rewrite Hc. split; [reflexivity | discriminate].
  - cbn [spaceless] in Hw. apply andb_true_iff in Hw as [Hd Hw].
    rewrite append_cons. cbn [spaceless]. rewrite Hd.
    split; [exact (proj1 (IH Hw)) | discriminate].
Qed.

Lemma split_from_parts (s : string) :
  forall cur,
    (forall w, cur = Some w -> w <> "" /\ spaceless w = true) ->
    Forall (fun t => t <> "" /\ spaceless t = true) (split_from cur s).
Proof.
  induction s as [|c s IH]; intros cur Hcur; cbn [split_from].
  - destruct cur as [w|]; repeat constructor; apply (Hcur w eq_refl).
  - destruct (is_space c) eqn:Ec.
    + destruct cur as [w|].
      * constructor; [apply (Hcur w eq_refl)|]. apply IH. discriminate.
      * apply IH. discriminate.
    + apply IH. intros w' Hw'. injection Hw' as <-.
      destruct cur as [w|]; cbn [default].
      * destruct (Hcur w eq_refl) as [_ Hw].
        destruct (spaceless_snoc w c Hw Ec). auto.
      * destruct (spaceless_snoc "" c eq_refl Ec). auto.
Qed.

Lemma classify_payload (line h : string) :
  classify line = Payload h ->
  contains "radio_rx" line = true
  /\ nth 1 (split line) "" = h
  /\ h <> "" /\ spaceless h = true.
Proof.
  unfold classify. destruct (contains "radio_rx" line); [|
    destruct (contains "radio_err" line); discriminate].
  pose proof (split_from_parts line None ltac:(discriminate)) as Hparts.
  fold (split line) in Hparts.
  destruct (split line) as [|a [|b rest]]; try discriminate.
  intros H. injection H as <-.
  inversion Hparts as [|? ? _ Htail]; subst.
  inversion Htail as [|? ? [Hne Hsp] _]; subst. auto.
Qed.

Lemma classify_radio_rx_line (h : string) :
  spaceless h = true -> h <> "" ->
  classify ("radio_rx  " ++ h) = Payload h.
Proof.
  intros Hh Hne. unfold classify.
  change ("radio_rx  " ++ h)%string with ("radio_rx" ++ ("  " ++ h))%string.
  rewrite contains_at_start.
  change ("radio_rx" ++ ("  " ++ h))%string with ("radio_rx  " ++ h)%string.
  rewrite split_radio_rx by assumption. reflexivity.
Qed.

Section WithDecode.

Variable decode_replace : list byte -> pystr.

Lemma decode_hex_hex (bs : list byte) :
  decode_hex decode_replace (hex bs) = decode_replace bs.
Proof.
  unfold decode_hex. rewrite (proj1 (fromhex_hex bs)). reflexivity.
Qed.

Lemma poll_skips_noise (noise : list string) :
  forall polls present rest txs,
    Forall (fun l => classify l = Noise) noise ->
    poll decode_replace (List.length noise + polls)
      (mkPort present true (noise ++ rest) txs)
    = poll decode_replace polls (mkPort present true rest txs).
Proof.
  induction noise as [|l noise IH]; intros polls present rest txs Hnoise;
    [reflexivity|].
  inversion Hnoise as [|? ? Hl Hrest]; subst.
  cbn [List.length Nat.add app poll]. unfold read.
  cbn [rx tx device_present opened hd tl]. rewrite Hl.
  apply IH. exact Hrest.
Qed.

Lemma poll_sound (polls : nat) :
  forall p h d p',
    poll decode_replace polls p = (Received h d, p') ->
    exists line,
      In line (rx p) /\ classify line = Payload h
      /\ d = decode_hex decode_replace h.
Proof.
  induction polls as [|polls IH]; intros p h d p' Hrun; [discriminate|].
  cbn [poll] in Hrun. unfold read in Hrun.
  destruct (classify (hd "" (rx p))) as [h0| |] eqn:E.
  - injection Hrun as <- <- _. exists (hd "" (rx p)).
    split; [|split; [exact E | reflexivity]].
    destruct (rx p) as [|l ls]; [discriminate E | left; reflexivity].
  - discriminate.
  - apply IH in Hrun as (line & Hin & Hc & Hd). cbn [rx] in Hin.
    exists line. split; [|auto].
    destruct (rx p) as [|l ls]; [destruct Hin | right; exact Hin].
Qed.

End WithDecode.

(** X6. Hearing a payload. On an open line, once the module has
    acknowledged the receive command, reads that carry no payload and no
    error are skipped, and the first line "radio_rx  <text>" read before
    the deadline (text not empty, without spaces) is reported as
    received with <text> as its hexadecimal text. The reads after that
    line are left unread and only the receive command is written. When
    <text> is what [bytes.hex] gives for some bytes, the decoded form is
    the text of exactly those bytes. *)
Theorem payload_heard_after_noise (decode_replace : list byte -> pystr)
    (timeout_ms : Z) (polls : nat) (present : bool)
    (ack h : string) (noise rest txs : list string) :
  contains "ok" (lower ack) = true ->
  Forall (fun l => classify l = Noise) noise ->
  (List.length noise < polls)%nat ->
  spaceless h = true -> h <> "" ->
  lora_receive decode_replace timeout_ms polls
    (mkPort present true
       (ack :: noise ++ ("radio_rx  " ++ h)%string :: rest) txs)
  = (Received h (decode_hex decode_replace h),
     mkPort present true rest
       (txs ++ [("radio rx " ++ decimal timeout_ms)%string]))
  /\ forall bs, decode_hex decode_replace (hex bs) = decode_replace bs.
Proof.
  intros Hack Hnoise Hpolls Hsp Hne. split; [|apply decode_hex_hex].
  unfold lora_receive, get_lora. cbn [opened]. unfold read, write.
  cbn [rx tx device_present opened hd tl]. rewrite Hack.
  replace polls with (List.length noise + S (polls - S (List.length noise)))%nat
    by lia.
  rewrite poll_skips_noise by exact Hnoise.
  cbn [poll]. unfold read. cbn [rx tx device_present opened hd tl].
  rewrite classify_radio_rx_line by assumption. reflexivity.
Qed.

Lemma payload_heard_after_noise_witness :
  fst (lora_receive utf8_decode_replace 10000 50
         (mkPort true true
            ["ok"; ""; "busy"; "radio_rx  48454C4C4F"; "later"] []))
  = Received "48454C4C4F" (text "HELLO").
Proof.
  assert (Hne : "48454C4C4F" <> "") by discriminate.
  assert (Hnoise : Forall (fun l => classify l = Noise) [""; "busy"])
    by (repeat constructor).
  assert (Hpolls : (List.length [""; "busy"] < 50)%nat) by (cbn; lia).
  exact (f_equal fst
           (proj1 (payload_heard_after_noise utf8_decode_replace 10000 50
                     true "ok" "48454C4C4F" [""; "busy"] ["later"] []
                     eq_refl Hnoise Hpolls eq_refl Hne))).
Defined.

(** X7. Nothing is made up. Whenever the receive call reports a
    payload, the module was there, the receive command was written and
    the read that answered it contains "ok" (the module acknowledged);
    one of the lines read contains "radio_rx", the reported hexadecimal
    text is the second space-separated part of that line, it is not
    empty, and the decoded form is its text, or the hexadecimal text
    itself when it is not valid hexadecimal. *)
Theorem received_only_from_radio_rx (decode_replace : list byte -> pystr)
    (timeout_ms : Z) (polls : nat) (p p' : port) (h : string) (d : pystr) :
  lora_receive decode_replace timeout_ms polls p = (Received h d, p') ->
  (opened p = true \/ device_present p = true)
  /\ contains "ok"
       (lower (hd "" (if opened p then rx p else tl (rx p)))) = true
  /\ In ("radio rx " ++ decimal timeout_ms)%string (tx p')
  /\ exists line,
       In line (rx p)
       /\ contains "radio_rx" line = true
       /\ nth 1 (split line) "" = h
       /\ h <> ""
       /\ d = match fromhex h with
              | Some bs => decode_replace bs
              | None => text h
              end.
Proof.
  unfold lora_receive. intros Hrun.
  destruct (get_lora p) as [ser p1] eqn:Eget.
  destruct ser; [|discriminate].
  destruct (read (write _ p1)) as [initial p2] eqn:Eread.
  destruct (contains "ok" (lower initial)) eqn:Eack; [|discriminate].
  unfold read, write in Eread. injection Eread as Hinit Hp2.
  cbn [rx tx device_present opened] in Hinit, Hp2.
  assert (Hshape : (opened p = true \/ device_present p = true)
                   /\ rx p1 = (if opened p then rx p else tl (rx p))
                   /\ forall l, In l (tl (rx p1)) -> In l (rx p)).
  { unfold get_lora in Eget. destruct (opened p).
    - injection Eget as <-. split; [left; reflexivity|].
      split; [reflexivity|]. intros l Hl.
      destruct (rx p); [destruct Hl | right; exact Hl].
    - destruct (device_present p); [|discriminate].
      injection Eget as <-. unfold read, write. cbn [rx snd].
      split; [right; reflexivity|]. split; [reflexivity|].
      intros l Hl. destruct (rx p) as [|a [|b r]]; cbn in Hl;
        try contradiction. right. right. exact Hl. }
  destruct Hshape as (Hthere & Hrx & Hsub).
  assert (Htx : forall polls p0 r p1',
             poll decode_replace polls p0 = (r, p1') -> tx p1' = tx p0).
  { clear. induction polls as [|polls IH]; intros p0 r p1' Hp.
    - cbn in Hp. injection Hp as _ <-. reflexivity.
    - cbn [poll] in Hp. unfold read in Hp.
      destruct (classify (hd "" (rx p0))).
      + injection Hp as _ <-. reflexivity.
      + injection Hp as _ <-. reflexivity.
      + apply IH in Hp. exact Hp. }
  split; [exact Hthere|]. split; [rewrite <- Hrx, Hinit; exact Eack|].
  split.
  { rewrite (Htx _ _ _ _ Hrun), <- Hp2. cbn [tx].
    apply in_or_app. right. left. reflexivity. }
  apply poll_sound in Hrun as (line & Hin & Hc & Hd).
  apply classify_payload in Hc as (Hcont & Hnth & Hne & _).
  exists line. rewrite <- Hp2 in Hin. cbn [rx] in Hin.
  split; [apply Hsub; exact Hin|]. repeat split; assumption.
Qed.

Lemma received_only_from_radio_rx_witness :
  (opened (mkPort true true ["ok"; "radio_rx  zz"] []) = true
   \/ device_present (mkPort true true ["ok"; "radio_rx  zz"] []) = true)
  /\ contains "ok" (lower "ok") = true
  /\ In "radio rx 10000" ["radio rx 10000"]
  /\ exists line,
       In line ["ok"; "radio_rx  zz"]
       /\ contains "radio_rx" line = true
       /\ nth 1 (split line) "" = "zz"
       /\ "zz" <> ""
       /\ text "zz" = match fromhex "zz" with
                      | Some bs => utf8_decode_replace bs
                      | None => text "zz"
                      end.
Proof.
  exact (received_only_from_radio_rx utf8_decode_replace 10000 5
           (mkPort true true ["ok"; "radio_rx  zz"] [])
           (mkPort true true [] ["radio rx 10000"]) "zz" (text "zz") eq_refl).
Defined.





(** X9. Beacon numbering. A pass of the beacon loop with the module
    there adds one to the counter and transmits "BEACON" followed by the
    new counter, zero-filled to four digits; a pass without a module
    leaves the counter and the line as they were. The counter can be
    read back from the message, so beacons with different counters
    carry different messages. *)
Theorem beacon_numbers_distinct :
  (forall a b : Z,
      0 <= a -> 0 <= b -> beacon_message a = beacon_message b -> a = b)
  /\ (forall count : Z, 0 <= count ->
        exists digits,
          beacon_message count = ("BEACON" ++ digits)%string
          /\ parse_digits digits = Some count)
  /\ (forall count present rxs txs,
        let '(count', out, p') :=
          beacon_pass count (mkPort present true rxs txs) in
        count' = count + 1
        /\ (exists ok, out = Some (beacon_message (count + 1), ok))
        /\ tx p' = txs ++ [("radio tx "
                             ++ hex (encode (beacon_message (count + 1))))%string])
  /\ (forall count rxs txs,
        beacon_pass count (mkPort false false rxs txs)
        = (count, None, mkPort false false rxs txs)).
Proof.
  split; [|split; [|split]].
  - intros a b Ha Hb Heq. unfold beacon_message in Heq.
    apply (inj (String.append "BEACON")) in Heq.
    apply (f_equal parse_digits) in Heq.
    rewrite !parse_format in Heq by assumption. congruence.
  - intros count Hc. exists (format_0d 4 count).
    split; [reflexivity | apply parse_format; exact Hc].
  - intros count present rxs txs. unfold beacon_pass, get_lora.
    cbn [opened]. unfold read, write. cbn [rx tx device_present opened].
    split; [reflexivity|]. split; [eexists; reflexivity | reflexivity].
  - reflexivity.
Qed.


Lemma beacon_numbers_distinct_witness :
  exists digits,
    beacon_message 7 = ("BEACON" ++ digits)%string
    /\ parse_digits digits = Some 7.
Proof.
  assert (Hc : 0 <= 7) by lia.
  exact (proj1 (proj2 beacon_numbers_distinct) 7 Hc).
Defined.

End LineReceiveFacts.

(** ** Packet delivery test *)

Module PacketTestFacts.

Import PacketTest.

Lemma test_loop_counts (attempts : list attempt) :
  forall t i,
    0 <= confirmed t <= sent t ->
    map fst (results t) = seq 0 i ->
    let t' := test_loop t i attempts in
    0 <= confirmed t' <= sent t'
    /\ confirmed t <= confirmed t'
    /\ sent t' = sent t + Z.of_nat (List.length attempts) - raised attempts
    /\ map fst (results t') = seq 0 (i + List.length attempts).
Proof.
  induction attempts as [|a attempts IH]; intros t i Hc Hr; cbn zeta.
  - cbn. rewrite Nat.add_0_r. repeat split; try lia. exact Hr.
  - cbn [test_loop].
    specialize (IH (test_step t i a) (S i)).
    assert (Hc' : 0 <= confirmed (test_step t i a) <= sent (test_step t i a)
                  /\ confirmed t <= confirmed (test_step t i a)
                  /\ sent (test_step t i a) = sent t + 1 - raised [a]).
    { destruct a as [|result extra]; cbn; [lia|].
      destruct (_ || _); lia. }
    assert (Hr' : map fst (results (test_step t i a)) = seq 0 (S i)).
    { rewrite seq_S. cbn [Nat.add].
      destruct a; cbn [test_step results]; rewrite map_app, Hr; reflexivity. }
    destruct Hc' as (Hc1 & Hc2 & Hc3).
    destruct (IH Hc1 Hr') as (H1 & H2 & H3 & H4).
    repeat split; try lia.
    + rewrite H3, Hc3. cbn [List.length]. rewrite Nat2Z.inj_succ.
      destruct a; cbn [raised]; lia.
    + rewrite H4. f_equal. cbn [List.length]. lia.
Qed.

(** X10. The packet test keeps its counts consistent: a packet counts
    as sent unless its exchange raised, and as confirmed only if sent,
    so 0 <= confirmed <= sent = packets - raised; one result is
    recorded per packet, numbered 0, 1, 2, ... in order. The success
    rate and the loss (before rounding) add up to 100, both lie between
    0 and 100, and the loss is 100 exactly when no packet was
    confirmed, which includes the case where nothing could be sent. *)
Theorem packet_test_counts (attempts : list attempt) :
  let t := api_lora_test attempts in
  0 <= confirmed t <= sent t
  /\ sent t = Z.of_nat (List.length attempts) - raised attempts
  /\ map fst (results t) = seq 0 (List.length attempts)
  /\ (success_rate t + packet_loss t == 100)%Q
  /\ (0 <= packet_loss t <= 100)%Q
  /\ ((packet_loss t == 100)%Q <-> confirmed t = 0)
  /\ (logged_success t = true <-> 0 < confirmed t).
Proof.
  cbn zeta. unfold api_lora_test.
  destruct (test_loop_counts attempts (mkTally 0 0 []) 0) as (Hc & _ & Hs & Hr);
    [cbn; lia | reflexivity |].
  set (t := test_loop (mkTally 0 0 []) 0 attempts) in *.
  cbn in Hs, Hr.
  assert (Hrate : (0 <= success_rate t <= 100)%Q
                  /\ ((success_rate t == 0)%Q <-> confirmed t = 0)).
  { unfold success_rate. destruct (0 <? sent t)%Z eqn:E.
    - apply Z.ltb_lt in E.
      assert (Hs0 : (0 < inject_Z (sent t))%Q)
        by (rewrite <- (Zlt_Qlt 0); exact E).
      assert (Hc0 : (0 <= inject_Z (confirmed t))%Q)
        by (rewrite <- (Zle_Qle 0); lia).
      assert (Hcs : (inject_Z (confirmed t) <= inject_Z (sent t))%Q)
        by (rewrite <- Zle_Qle; lia).
      assert (Hdiv0 : (0 <= inject_Z (confirmed t) / inject_Z (sent t))%Q)
        by (apply Qle_shift_div_l; [exact Hs0 | lra]).
      assert (Hdiv1 : (inject_Z (confirmed t) / inject_Z (sent t) <= 1)%Q)
        by (apply Qle_shift_div_r; [exact Hs0 | lra]).
      split; [lra|]. split.
      + intros Hz.
        assert (Hq : (inject_Z (confirmed t) / inject_Z (sent t) == 0)%Q) by lra.
        assert (Hq' : (inject_Z (confirmed t) == 0)%Q).
        { rewrite <- (Qmult_div_r (inject_Z (confirmed t)) (inject_Z (sent t)))
            by lra.
          rewrite Hq. ring. }
        unfold Qeq in Hq'. cbn in Hq'. lia.
      + intros ->. change (inject_Z 0) with 0%Q. unfold Qdiv.
        rewrite !Qmult_0_l. reflexivity.
    - apply Z.ltb_ge in E. split; [lra|]. split; [lia | reflexivity]. }
  destruct Hrate as (Hb & Hz).
  unfold packet_loss, logged_success.
  split; [exact Hc|]. split; [lia|]. split; [exact Hr|].
  split; [lra|]. split; [lra|]. split; [split|split].
  - intros Hl. apply Hz. lra.
  - intros Hc0. apply Hz in Hc0. lra.
  - intros Hl. apply Z.ltb_lt in Hl. exact Hl.
  - intros Hl. apply Z.ltb_lt. exact Hl.
Qed.

End PacketTestFacts.

(** ** Ping against the responder, and in simulation mode *)

Module PingPongFacts.

Import LoRaNode LoRaPing PingPong.

Lemma update_counts (st : stats) (rtt : PrimFloat.float)
    (rssi : option Z) :
  sent (update_stats st rtt rssi) = sent st
  /\ received (update_stats st rtt rssi) = received st + 1
  /\ lost (update_stats st rtt rssi) = lost st.
Proof. destruct rssi; cbn; auto. Qed.

(** The pong the responder [node_b] builds for probe [seq] of a
    session from [node_a]. *)
Lemma pong_for_ping (node_a node_b target : string) (seq size : Z)
    (now : jval) :
  pong_reply node_b (ping_packet node_a target seq now size)
  = Some [("type", JStr "PONG"); ("from", JStr node_b);
          ("to", JStr node_a); ("seq", JInt seq); ("ping_time", now)].
Proof. reflexivity. Qed.

Lemma answered_loop (node_a node_b target : string) (size : Z)
    (answers : list (jval * PrimFloat.float * option Z)) :
  forall first st,
    let run := ping_loop first st
                 (answered_session node_a node_b target size first answers) in
    sent (fst run) = sent st + Z.of_nat (List.length answers)
    /\ received (fst run) = received st + Z.of_nat (List.length answers)
    /\ lost (fst run) = lost st
    /\ snd run = map (fun _ => ReplyFrom (JStr node_b)) answers.
Proof.
  induction answers as [|[[now rtt] rssi] answers IH]; intros first st;
    cbn zeta.
  - cbn. repeat split; lia.
  - cbn [answered_session]. rewrite pong_for_ping.
    cbn [ping_loop ping_step].
    assert (Hvalid : valid_pong
              [("type", JStr "PONG"); ("from", JStr node_b);
               ("to", JStr node_a); ("seq", JInt first);
               ("ping_time", now)] first = true).
    { unfold valid_pong. change (type_is _ "PONG") with true.
      change (pget "seq" _) with (Some (JInt first)).
      cbn [andb jval_eqb]. apply Z.eqb_refl. }
    rewrite Hvalid. change (pget "from" _) with (Some (JStr node_b)).
    cbn match.
    specialize (IH (first + 1) (update_stats (add_sent st) rtt rssi)).
    cbn zeta in IH.
    destruct (ping_loop (first + 1) _ _) as [st2 ls].
    cbn [fst snd] in *. destruct IH as (Hs & Hr & Hl & Hls).
    destruct (update_counts (add_sent st) rtt rssi) as (Es & Er & El).
    rewrite Es in Hs. rewrite Er in Hr. rewrite El in Hl. cbn in Hs, Hr, Hl.
    cbn [List.length map]. rewrite Nat2Z.inj_succ.
    repeat split; try lia. rewrite Hls. reflexivity.
Qed.

(** X11. Ping against the repository's responder. The responder
    answers a ping it decodes, whatever its "to" field, with a pong
    that carries the same sequence number and its own name; the sender
    accepts that pong for the probe it sent. So a session in which
    every probe is transmitted and answered ends with
    sent = received = the number of probes and lost = 0, a reply line
    per probe, and a loss figure of 0. The responder does not answer
    its own kind of packet: a pong gets no reply. *)
Theorem ping_answered_by_responder (node_a node_b target : string)
    (size : Z) (answers : list (jval * PrimFloat.float * option Z)) :
  let run := run_ping (answered_session node_a node_b target size 1 answers) in
  let n := Z.of_nat (List.length answers) in
  sent (fst run) = n /\ received (fst run) = n /\ lost (fst run) = 0
  /\ snd run = map (fun _ => ReplyFrom (JStr node_b)) answers
  /\ (forall pct, loss_percent (fst run) = Some pct -> (pct == 0)%Q)
  /\ (forall first now,
        exists pong,
          pong_reply node_b (ping_packet node_a target first now size)
            = Some pong
          /\ valid_pong pong first = true
          /\ pget "from" pong = Some (JStr node_b)
          /\ pong_reply node_a pong = None).
Proof.
  cbn zeta. unfold run_ping.
  destruct (answered_loop node_a node_b target size answers 1 reset_stats)
    as (Hs & Hr & Hl & Hls).
  cbn in Hs, Hr, Hl.
  split; [exact Hs|]. split; [exact Hr|]. split; [exact Hl|].
  split; [exact Hls|]. split.
  - intros pct. unfold loss_percent. rewrite Hl.
    destruct (0 <? sent _)%Z; [|discriminate].
    intros H. injection H as <-. unfold Qdiv. rewrite !Qmult_0_l. reflexivity.
  - intros first now. eexists. split; [apply pong_for_ping|].
    split; [|split; reflexivity].
    unfold valid_pong. change (type_is _ "PONG") with true.
    change (pget "seq" _) with (Some (JInt first)).
    cbn [andb jval_eqb]. apply Z.eqb_refl.
Qed.

Section Simulated.

Variable utf8_decode : list byte -> option string.
Variable json_loads : string -> option packet.

Lemma simulated_probe (i : probe_input) :
  node_probe utf8_decode json_loads None i = TxOk NoResponse.
Proof. reflexivity. Qed.

Lemma timeouts_loop (n : nat) :
  forall first st,
    let run := ping_loop first st (repeat (TxOk NoResponse) n) in
    sent (fst run) = sent st + Z.of_nat n
    /\ received (fst run) = received st
    /\ lost (fst run) = lost st + Z.of_nat n
    /\ snd run = repeat RequestTimeout n.
Proof.
  induction n as [|n IH]; intros first st; cbn zeta.
  - cbn. repeat split; lia.
  - cbn [repeat ping_loop ping_step].
    specialize (IH (first + 1) (add_lost (add_sent st))). cbn zeta in IH.
    destruct (ping_loop (first + 1) _ _) as [st2 ls]. cbn [fst snd] in *.
    destruct IH as (Hs & Hr & Hl & Hls). cbn in Hs, Hr, Hl.
    rewrite Nat2Z.inj_succ. repeat split; try lia. rewrite Hls. reflexivity.
Qed.

End Simulated.

(** X12. Ping without a radio. In simulation mode every transmit call
    returns true and every receive call returns no data, so every probe
    is counted as sent and as lost: a session of n probes ends with
    sent = n, received = 0, lost = n, prints "Request timeout" n
    times, and for n > 0 reports a loss of 100. *)
Theorem simulated_ping_all_lost (utf8_decode : list byte -> option string)
    (json_loads : string -> option packet) (inputs : list probe_input) :
  let run := run_ping (map (node_probe utf8_decode json_loads None) inputs) in
  let n := Z.of_nat (List.length inputs) in
  sent (fst run) = n /\ received (fst run) = 0 /\ lost (fst run) = n
  /\ snd run = repeat RequestTimeout (List.length inputs)
  /\ (forall pct, loss_percent (fst run) = Some pct -> (pct == 100)%Q).
Proof.
  cbn zeta.
  assert (Hmap : map (node_probe utf8_decode json_loads None) inputs
                 = repeat (TxOk NoResponse) (List.length inputs)).
  { induction inputs as [|i inputs IH]; [reflexivity|].
    cbn [map List.length repeat]. rewrite IH. reflexivity. }
  rewrite Hmap. unfold run_ping.
  destruct (timeouts_loop (List.length inputs) 1 reset_stats)
    as (Hs & Hr & Hl & Hls).
  cbn in Hs, Hr, Hl.
  split; [exact Hs|]. split; [exact Hr|]. split; [exact Hl|].
  split; [exact Hls|].
  intros pct. unfold loss_percent. rewrite Hl, Hs.
  change (0 + Z.of_nat (List.length inputs)) with (Z.of_nat (List.length inputs)).
  destruct (0 <? Z.of_nat (List.length inputs))%Z eqn:E; [|discriminate].
  apply Z.ltb_lt in E. intros H. injection H as <-.
  field. intros Hz. unfold Qeq in Hz. cbn in Hz. lia.
Qed.

(** The round-trip figures are floats: after three samples of 0.1
    (0x1.999999999999ap-4) the total is 0.30000000000000004 and the
    average 0.10000000000000002, above the maximum 0.1. *)
Lemma rtt_average_can_exceed_maximum :
  let sample := PrimFloat.div (float_of_Z 1) (float_of_Z 10) in
  let st := update_stats (update_stats (update_stats reset_stats sample None)
                            sample None) sample None in
  rtt_max st = sample /\ rtt_min st = sample
  /\ PrimFloat.ltb (rtt_max st) (rtt_avg st) = true.
Proof. vm_compute. repeat split. Qed.

End PingPongFacts.

(** ** More on the file transfer *)

Module FileSessionFacts.

Import Codec LoRaFileTransfer CodecFacts LoRaFileTransferFacts FileSession.

(** *** Sender *)

Lemma send_chunks_same_packets (chunk_size : Z) (l l' : link) (total : Z)
    (n : nat) :
  forall i f sent sent',
    fst (send_chunks chunk_size l total n i f sent)
    = fst (send_chunks chunk_size l' total n i f sent')
    /\ (snd (send_chunks chunk_size l total n i f sent) = None
        <-> snd (send_chunks chunk_size l' total n i f sent') = None).
Proof.
  induction n as [|n IH]; intros i f sent sent'.
  - cbn. split; [reflexivity|]. split; discriminate.
  - cbn [send_chunks].
    destruct (f_read chunk_size f) as [[chunk_data f']|];
      [|split; [reflexivity|split; reflexivity]].
    specialize (IH (i + 1) f'
                  (if chunk_sent l i then sent + 1 else sent)
                  (if chunk_sent l' i then sent' + 1 else sent')).
    destruct (send_chunks chunk_size l total n (i + 1) f' _) as [pkts s1].
    destruct (send_chunks chunk_size l' total n (i + 1) f' _) as [pkts' s2].
    cbn [fst snd] in *. destruct IH as [-> Hnone]. split; [reflexivity|].
    exact Hnone.
Qed.


(** X14. Fire and forget. What [send_file] hands to the radio and what
    it returns depend on the radio only through the announcement being
    sent and a response coming back: whether the chunks and the
    completion packet are transmitted changes neither; a chunk whose
    transmission fails is not sent again and the call still returns
    true. *)
Theorem send_file_ignores_chunk_results (node_id filename dest : string)
    (chunk_size : Z) (file : option (list byte)) (l l' : link) :
  info_sent l = info_sent l' ->
  ack_received l = ack_received l' ->
  send_file node_id chunk_size file filename dest l
  = send_file node_id chunk_size file filename dest l'.
Proof.
  intros Hinfo Hack. unfold send_file. destruct file as [content|]; [|reflexivity].
  destruct (chunk_size =? 0)%Z; [reflexivity|].
  rewrite <- Hinfo, <- Hack.
  destruct (info_sent l); [|reflexivity].
  destruct (ack_received l); [|reflexivity]. cbn [negb].
  pose proof (send_chunks_same_packets chunk_size l l'
                ((Z.of_nat (List.length content) + chunk_size - 1) / chunk_size)
                (Z.to_nat ((Z.of_nat (List.length content) + chunk_size - 1)
                           / chunk_size))
                0 content 0 0) as [Hsame Hnone].
  destruct (send_chunks chunk_size l _ _ 0 content 0) as [pkts s1].
  destruct (send_chunks chunk_size l' _ _ 0 content 0) as [pkts' s2].
  cbn [fst snd] in Hsame, Hnone. rewrite Hsame.
  destruct s1 as [z1|], s2 as [z2|]; try reflexivity.
  - pose proof (proj2 Hnone eq_refl) as H. discriminate H.
  - pose proof (proj1 Hnone eq_refl) as H. discriminate H.
Qed.

Lemma send_file_ignores_chunk_results_witness :
  send_file "NODE_A" 5 (Some (encode "hello world!")) "hello.txt" "NODE_B"
    (mkLink true true (fun _ => true))
  = send_file "NODE_A" 5 (Some (encode "hello world!")) "hello.txt" "NODE_B"
      (mkLink true true (fun _ => false)).
Proof.
  exact (send_file_ignores_chunk_results "NODE_A" "hello.txt" "NODE_B" 5
           (Some (encode "hello world!"))
           (mkLink true true (fun _ => true))
           (mkLink true true (fun _ => false)) eq_refl eq_refl).
Defined.

Lemma chunk_lengths (chunk_size : Z) (content : list byte) :
  0 < chunk_size ->
  let n := Z.to_nat (num_chunks_of chunk_size content) in
  let c := Z.to_nat chunk_size in
  (forall j, (j < n)%nat ->
     (1 <= List.length (chunk_at chunk_size content j) <= c)%nat
     /\ ((S j < n)%nat -> List.length (chunk_at chunk_size content j) = c))
  /\ (content = [] -> n = 0%nat).
Proof.
  intros Hcs. cbn zeta.
  set (len := Z.of_nat (List.length content)).
  assert (Hceil : num_chunks_of chunk_size content
                  = (len + chunk_size - 1) / chunk_size) by reflexivity.
  assert (Hnn : 0 <= (len + chunk_size - 1) / chunk_size)
    by (apply Z.div_pos; lia).
  pose proof (Z.mul_div_le (len + chunk_size - 1) chunk_size Hcs) as Hle.
  pose proof (Z.mul_succ_div_gt (len + chunk_size - 1) chunk_size Hcs) as Hgt.
  split.
  - intros j Hj. unfold chunk_at.
    rewrite length_firstn, length_skipn. rewrite Hceil in Hj. split.
    + split; [|lia]. nia.
    + intros Hj'. nia.
  - intros ->. rewrite Hceil. unfold len. cbn [List.length Z.of_nat].
    rewrite Z.div_small by lia. reflexivity.
Qed.

(** X15. Chunk sizes. With a positive chunk size, once the
    announcement is sent and answered, what [send_file] hands to the
    radio is the announcement, the data packets and the completion
    packet, and the data packet at position j has type FILE_DATA, index
    j and as data the base64 text of the chunk_size bytes of the file
    from offset j * chunk_size on (fewer at the end of the file). Every
    chunk has at least one byte and at most chunk_size bytes, every
    chunk but the last has exactly chunk_size bytes, and an empty file
    has no data packet; there are ceil(size / chunk_size) data
    packets. *)
Theorem chunks_are_full_but_last (node_id filename dest : string)
    (chunk_size : Z) (content : list byte) (l : link) :
  0 < chunk_size -> info_sent l = true -> ack_received l = true ->
  exists info datas complete,
    fst (send_file node_id chunk_size (Some content) filename dest l)
      = info :: datas ++ [complete]
    /\ type_is info "FILE_INFO" = true
    /\ type_is complete "FILE_COMPLETE" = true
    /\ Z.of_nat (List.length datas)
       = (Z.of_nat (List.length content) + chunk_size - 1) / chunk_size
    /\ (content = [] -> datas = [])
    /\ forall j d, nth_error datas j = Some d ->
         let chunk :=
           firstn (Z.to_nat chunk_size)
             (skipn (j * Z.to_nat chunk_size) content) in
         pget "type" d = Some (JStr "FILE_DATA")
         /\ pget "chunk" d = Some (JInt (Z.of_nat j))
         /\ pget "data" d = Some (JStr (b64encode chunk))
         /\ (1 <= List.length chunk <= Z.to_nat chunk_size)%nat
         /\ ((S j < List.length datas)%nat ->
             List.length chunk = Z.to_nat chunk_size).
Proof.
  intros Hcs Hinfo Hack.
  rewrite (send_file_frames node_id filename dest chunk_size content l
             Hcs Hinfo Hack). cbn [fst].
  destruct (chunk_lengths chunk_size content Hcs) as [Hlen Hempty].
  eexists _, (data_packets chunk_size content), _.
  split; [reflexivity|]. split; [reflexivity|]. split; [reflexivity|].
  assert (Hn : List.length (data_packets chunk_size content)
               = Z.to_nat (num_chunks_of chunk_size content)).
  { unfold data_packets. rewrite length_map, length_seq. reflexivity. }
  split.
  { rewrite Hn. unfold num_chunks_of. apply Z2Nat.id.
    apply Z.div_pos; lia. }
  split.
  - intros Hc. specialize (Hempty Hc). cbn zeta in Hempty.
    destruct (data_packets chunk_size content); [reflexivity|].
    cbn in Hn. lia.
  - intros j d Hd. cbn zeta.
    assert (Hj : (j < Z.to_nat (num_chunks_of chunk_size content))%nat).
    { rewrite <- Hn. apply nth_error_Some. rewrite Hd. discriminate. }
    unfold data_packets in Hd. rewrite nth_error_map in Hd.
    rewrite nth_error_seq in Hd.
    destruct (j <? Z.to_nat (num_chunks_of chunk_size content))%nat eqn:E;
      [|apply Nat.ltb_ge in E; lia].
    cbn in Hd. injection Hd as <-.
    split; [reflexivity|]. split; [reflexivity|]. split; [reflexivity|].
    rewrite Hn. exact (Hlen j Hj).
Qed.

Lemma chunks_are_full_but_last_witness :
  exists info datas complete,
    fst (send_file "NODE_A" 5 (Some (encode "hello world!")) "hello.txt"
           "NODE_B" (mkLink true true (fun _ => false)))
      = info :: datas ++ [complete]
    /\ type_is info "FILE_INFO" = true
    /\ type_is complete "FILE_COMPLETE" = true
    /\ Z.of_nat (List.length datas)
       = (Z.of_nat (List.length (encode "hello world!")) + 5 - 1) / 5
    /\ (encode "hello world!" = [] -> datas = [])
    /\ forall j d, nth_error datas j = Some d ->
         let chunk := firstn (Z.to_nat 5)
                        (skipn (j * Z.to_nat 5) (encode "hello world!")) in
         pget "type" d = Some (JStr "FILE_DATA")
         /\ pget "chunk" d = Some (JInt (Z.of_nat j))
         /\ pget "data" d = Some (JStr (b64encode chunk))
         /\ (1 <= List.length chunk <= Z.to_nat 5)%nat
         /\ ((S j < List.length datas)%nat ->
             List.length chunk = Z.to_nat 5).
Proof.
  assert (Hcs : 0 < 5) by lia.
  exact (chunks_are_full_but_last "NODE_A" "hello.txt" "NODE_B" 5
           (encode "hello world!") (mkLink true true (fun _ => false))
           Hcs eq_refl eq_refl).
Defined.



Section Simulated.

Variable utf8_decode : list byte -> option string.

(** X17. File sending without a radio. In simulation mode the
    announcement counts as sent but no response ever comes back, so
    [send_file] of an existing file (chunk size not zero) hands over
    the announcement alone and returns false: no data packet is ever
    sent. *)
Theorem simulated_send_file_stops_after_announcement
    (node_id filename dest : string) (chunk_size : Z) (content : list byte)
    (info : LoRaNode.payload_arg) (info_hw : LoRaNode.tx_outcome)
    (ack_hw : PingPong.rx_outcome) (chunk_hw : Z -> LoRaNode.tx_outcome)
    (chunk : Z -> LoRaNode.payload_arg) :
  chunk_size <> 0 ->
  send_file node_id chunk_size (Some content) filename dest
    (PingPong.node_link utf8_decode None info info_hw ack_hw chunk_hw chunk)
  = ([file_info_packet node_id dest filename
        (Z.of_nat (List.length content))
        (num_chunks_of chunk_size content) (md5_hexdigest content)],
     Returned false).
Proof.
  intros Hcs. unfold send_file.
  destruct (chunk_size =? 0)%Z eqn:E; [apply Z.eqb_eq in E; contradiction|].
  reflexivity.
Qed.

End Simulated.

Lemma simulated_send_file_stops_after_announcement_witness :
  snd (send_file "NODE_A" 200 (Some (encode "hello")) "a.txt" "NODE_B"
         (PingPong.node_link (fun _ => None) None (LoRaNode.Str "info")
            LoRaNode.TxDone PingPong.RxTimeout (fun _ => LoRaNode.TxDone)
            (fun _ => LoRaNode.Str "chunk")))
  = Returned false.
Proof.
  assert (Hcs : 200 <> 0) by discriminate.
  exact (f_equal snd
           (simulated_send_file_stops_after_announcement (fun _ => None)
              "NODE_A" "a.txt" "NODE_B" 200 (encode "hello")
              (LoRaNode.Str "info") LoRaNode.TxDone PingPong.RxTimeout
              (fun _ => LoRaNode.TxDone) (fun _ => LoRaNode.Str "chunk") Hcs)).
Defined.


End FileSessionFacts.

(** ** The receiver over whole sessions *)

Module FileReceptionFacts.

Import Codec LoRaFileTransfer CodecFacts LoRaFileTransferFacts FileSession
  FileReception.

Lemma lookup_store_all (ds : list (Z * list byte)) (i : Z) :
  forall m : gmap pykey (list byte),
    store_all ds m !! KInt i
    = match last_for i ds with
      | Some c => Some c
      | None => m !! KInt i
      end.
Proof.
  induction ds as [|[j c] ds IH]; intros m; [reflexivity|].
  unfold store_all in *. cbn [fold_left fst snd last_for].
  rewrite IH. destruct (last_for i ds) as [c'|]; [reflexivity|].
  destruct (Z.eqb_spec i j) as [->|Hne].
  - apply lookup_insert_eq.
  - apply lookup_insert_ne. intros Hk. injection Hk as Hk. congruence.
Qed.

Lemma assemble_store_all (ds : list (Z * list byte)) (count : nat) :
  forall i : nat,
    assemble (store_all ds ∅) count (Z.of_nat i)
    = concat (map (fun j => default [] (last_for (Z.of_nat j) ds))
                (seq i count)).
Proof.
  induction count as [|count IH]; intros i; [reflexivity|].
  cbn [assemble seq map concat].
  rewrite lookup_store_all, lookup_empty.
  replace (Z.of_nat i + 1) with (Z.of_nat (S i)) by lia.
  rewrite IH. destruct (last_for (Z.of_nat i) ds); reflexivity.
Qed.

Section Session.

Variable node_id : string.
Variable save_dir : string.
Variable openable : string -> bool.

Lemma loop_data_items (info : packet) (total total' : Z)
    (ds : list (Z * list byte)) :
  truthy (Some info) = true ->
  pget "chunks" info = Some (JInt total) -> total <> 0 ->
  forall m : gmap pykey (list byte),
    receive_loop node_id save_dir openable (mkSession (Some info) m)
      (data_items total' ds)
    = (mkSession (Some info) (store_all ds m), [], false).
Proof.
  intros Htruthy Hchunks Hne.
  induction ds as [|[j c] ds IH]; intros m; [reflexivity|].
  cbn [data_items map receive_loop fst snd].
  rewrite (step_file_data node_id save_dir openable info m j total total' c
             Htruthy Hchunks Hne).
  fold (data_items total' ds). rewrite IH. reflexivity.
Qed.

Lemma step_announcement (st : session) (info : packet) :
  announces (RxPacket info) = true ->
  receive_step node_id save_dir openable st (RxPacket info)
  = (mkSession (Some info) ∅, [SendAck (ack_packet node_id)], false).
Proof.
  cbn [announces]. intros H. apply andb_true_iff in H as [Hty Hkeys].
  unfold receive_step. rewrite Hty. unfold on_file_info.
  destruct (pget "filename" info); [|discriminate].
  destruct (pget "size" info); [|discriminate].
  destruct (pget "chunks" info); [|discriminate].
  reflexivity.
Qed.

Lemma step_events (st : session) (item : rx_item) :
  let '(st', evs, stop) := receive_step node_id save_dir openable st item in
  count_where is_ack evs = (if announces item then 1 else 0)%nat
  /\ (stop = true ->
      is_complete item = true
      /\ exists path content,
           evs = [WriteFile path content;
                  HashVerified path (md5_hexdigest content)]
           \/ evs = [WriteFile path content; HashMismatch]).
Proof.
  destruct item as [| |p]; cbn [receive_step announces is_complete];
    try (split; [reflexivity|discriminate]).
  destruct (type_is p "FILE_INFO") eqn:Einfo.
  - unfold on_file_info. cbn [andb].
    destruct (pget "filename" p), (pget "size" p), (pget "chunks" p);
      (split; [reflexivity|discriminate]).
  - cbn [andb].
    destruct (type_is p "FILE_DATA" && truthy (file_info st)).
    + destruct (on_file_data st p) as [st' evs] eqn:Eon.
      split; [|discriminate].
      unfold on_file_data in Eon.
      repeat match type of Eon with
             | context [match ?x with _ => _ end] => destruct x
             end;
        injection Eon as _ <-; reflexivity.
    + destruct (type_is p "FILE_COMPLETE" && truthy (file_info st)) eqn:Ec.
      * apply andb_true_iff in Ec as [Ec _]. rewrite Ec.
        destruct (on_file_complete save_dir openable st p) as [evs stop] eqn:Eon.
        unfold on_file_complete in Eon.
        repeat match type of Eon with
               | context [match ?x with _ => _ end] => destruct x eqn:?
               end;
          injection Eon as <- <-;
          (split; [reflexivity|]); try discriminate;
          intros _; (split; [reflexivity|]);
          eexists _, _.
        -- left. reflexivity.
        -- right. reflexivity.
      * split; [reflexivity|discriminate].
Qed.

End Session.

(** X18. What the receiver writes. After an announcement with an
    integer chunk count other than 0, whatever was stored before, any
    sequence of data packets (any indices, in any order, with repeats)
    followed by the completion packet makes the receiver acknowledge
    once, write for each index 0 .. total-1 in order the chunk of the
    LAST data packet with this index (nothing for an index that never
    came; packets with an index outside 0 .. total-1 do not show), print
    the verdict by comparing the digest of the bytes written with the
    digest in the completion packet, and stop. *)
Theorem last_chunk_per_index_is_written (node_id save_dir name : string)
    (openable : string -> bool) (st0 : session) (info : packet)
    (total total' : Z) (ds : list (Z * list byte)) (name' h : string) :
  announces (RxPacket info) = true ->
  pget "filename" info = Some (JStr name) ->
  pget "chunks" info = Some (JInt total) ->
  total <> 0 ->
  openable (path_join save_dir name) = true ->
  let content := assembled total ds in
  let path := path_join save_dir name in
  receive_loop node_id save_dir openable st0
    (RxPacket info :: data_items total' ds
       ++ [RxPacket (file_complete_packet name' h)])
  = (mkSession (Some info) (store_all ds ∅),
     [SendAck (ack_packet node_id);
      WriteFile path content;
      if String.eqb (md5_hexdigest content) h
      then HashVerified path (md5_hexdigest content)
      else HashMismatch],
     true).
Proof.
  intros Hann Hname Hchunks Hne Hopen. cbn zeta.
  assert (Htruthy : truthy (Some info) = true).
  { destruct info; [discriminate Hname|reflexivity]. }
  cbn [receive_loop].
  rewrite (step_announcement node_id save_dir openable st0 info Hann).
  rewrite (loop_app node_id save_dir openable _ _ _ _ _
             (loop_data_items node_id save_dir openable info total total' ds
                Htruthy Hchunks Hne ∅)).
  cbn [receive_loop].
  rewrite (step_file_complete node_id save_dir openable info (store_all ds ∅)
             name name' h total Htruthy Hname Hchunks Hopen).
  change 0 with (Z.of_nat 0). rewrite assemble_store_all. reflexivity.
Qed.

Lemma last_chunk_per_index_is_written_witness :
  let info := file_info_packet "NODE_A" "NODE_B" "a.txt" 4 2
                (md5_hexdigest (encode "abcd")) in
  let stale := mkSession (Some [("type", JStr "FILE_INFO")])
                 {[ KInt 1 := encode "old" ]} in
  let ds := [(0, encode "ab"); (5, encode "zz"); (1, encode "cd");
             (0, encode "AB"); (-1, encode "q")] in
  snd (fst (receive_loop "NODE_B" "./received" (fun _ => true) stale
              (RxPacket info :: data_items 2 ds
                 ++ [RxPacket (file_complete_packet "a.txt"
                                 (md5_hexdigest (encode "abcd")))])))
  = [SendAck (ack_packet "NODE_B");
     WriteFile "./received/a.txt" (encode "ABcd");
     HashMismatch].
Proof.
  cbn zeta.
  pose proof (last_chunk_per_index_is_written "NODE_B" "./received" "a.txt"
                (fun _ => true)
                (mkSession (Some [("type", JStr "FILE_INFO")])
                   {[ KInt 1 := encode "old" ]})
                (file_info_packet "NODE_A" "NODE_B" "a.txt" 4 2
                   (md5_hexdigest (encode "abcd")))
                2 2
                [(0, encode "ab"); (5, encode "zz"); (1, encode "cd");
                 (0, encode "AB"); (-1, encode "q")]
                "a.txt" (md5_hexdigest (encode "abcd"))
                eq_refl eq_refl eq_refl) as H.
  assert (Hne : 2 <> 0) by discriminate.
  specialize (H Hne eq_refl). cbn zeta in H.
  rewrite H. cbn [fst snd]. vm_compute. reflexivity.
Defined.

(** X19. The receive loop ends only on a completion packet, and only
    after writing a file and printing a verdict: when [receive_file]'s
    loop stops, a completion packet was among the items and the events
    end with the file written followed by the digest verdict. No error
    and no other packet ends the loop. *)
Theorem loop_stops_only_with_verdict (node_id save_dir : string)
    (openable : string -> bool) (items : list rx_item) :
  forall (st st' : session) (evs : list event),
    receive_loop node_id save_dir openable st items = (st', evs, true) ->
    existsb is_complete items = true
    /\ exists before path content,
         evs = before ++ [WriteFile path content;
                          HashVerified path (md5_hexdigest content)]
         \/ evs = before ++ [WriteFile path content; HashMismatch].
Proof.
  induction items as [|item items IH]; intros st st' evs Hrun.
  - discriminate.
  - cbn [receive_loop existsb] in *.
    pose proof (step_events node_id save_dir openable st item) as Hstep.
    destruct (receive_step node_id save_dir openable st item)
      as [[st1 evs1] stop1].
    destruct Hstep as [_ Hstop].
    destruct stop1.
    + injection Hrun as <- <-.
      destruct (Hstop eq_refl) as (Hc & path & content & Hevs).
      rewrite Hc. split; [reflexivity|].
      exists [], path, content. exact Hevs.
    + destruct (receive_loop node_id save_dir openable st1 items)
        as [[st2 evs2] stop2] eqn:Erest.
      injection Hrun as <- <- ->.
      destruct (IH st1 st2 evs2 Erest) as (Hc & before & path & content & Hevs).
      rewrite Hc, orb_true_r. split; [reflexivity|].
      exists (evs1 ++ before), path, content.
      rewrite <- !app_assoc. destruct Hevs as [->| ->]; [left|right]; reflexivity.
Qed.

Lemma loop_stops_only_with_verdict_witness :
  existsb is_complete
    [RxNothing;
     RxPacket (file_info_packet "NODE_A" "NODE_B" "a.txt" 1 1 "00");
     RxUndecodable;
     RxPacket (file_data_packet 0 1 [x61]);
     RxPacket (file_complete_packet "a.txt" "00")] = true.
Proof.
  pose (r := receive_loop "NODE_B" "./received" (fun _ => true) session_start
               [RxNothing;
                RxPacket (file_info_packet "NODE_A" "NODE_B" "a.txt" 1 1 "00");
                RxUndecodable;
                RxPacket (file_data_packet 0 1 [x61]);
                RxPacket (file_complete_packet "a.txt" "00")]).
  assert (Hr : r = (fst (fst r), snd (fst r), true))
    by (vm_compute; reflexivity).
  exact (proj1 (loop_stops_only_with_verdict "NODE_B" "./received"
                  (fun _ => true) _ session_start (fst (fst r)) (snd (fst r))
                  Hr)).
Defined.

(** X20. The receiver acknowledges announcements and nothing else: as
    long as the loop has not stopped, the acknowledgements sent are as
    many as the announcements received that carry a file name, a size
    and a chunk count. Data and completion packets are never
    acknowledged, and an announcement lacking one of the three fields
    is not either. *)
Theorem acks_only_for_announcements (node_id save_dir : string)
    (openable : string -> bool) (items : list rx_item) :
  forall st : session,
    let '(_, evs, stop) := receive_loop node_id save_dir openable st items in
    (count_where is_ack evs <= count_where announces items)%nat
    /\ (stop = false ->
        count_where is_ack evs = count_where announces items).
Proof.
  assert (Happ : forall xs ys : list event,
             count_where is_ack (xs ++ ys)
             = (count_where is_ack xs + count_where is_ack ys)%nat).
  { induction xs as [|x xs IHx]; intros ys; [reflexivity|].
    cbn [app count_where]. rewrite IHx. lia. }
  induction items as [|item items IH]; intros st.
  - cbn. split; [lia|reflexivity].
  - cbn [receive_loop count_where].
    pose proof (step_events node_id save_dir openable st item) as Hstep.
    destruct (receive_step node_id save_dir openable st item)
      as [[st1 evs1] stop1].
    destruct Hstep as [Hacks _].
    destruct stop1.
    + rewrite Hacks. split; [lia|discriminate].
    + specialize (IH st1).
      destruct (receive_loop node_id save_dir openable st1 items)
        as [[st2 evs2] stop2].
      rewrite Happ, Hacks. destruct IH as [Hle Heq].
      split; [lia|]. intros Hs. rewrite (Heq Hs). reflexivity.
Qed.

End FileReceptionFacts.

(** ** The round trip of a file *)

Module RoundTripFacts.

Import Codec LoRaFileTransfer CodecFacts LoRaFileTransferFacts FileSession
  FileReception FileReceptionFacts FileDelivery.

Lemma b64encode_injective (c c' : list byte) :
  b64encode c = b64encode c' -> c = c'.
Proof.
  intros H. apply (f_equal b64decode) in H.
  rewrite !b64_round_trip in H. injection H as H. exact H.
Qed.

Lemma last_for_chunks_of (j : Z) (ds : list delivery) :
  last_for j (chunks_of ds) = snd <$> last_data j ds.
Proof.
  induction ds as [|d ds IH]; [reflexivity|].
  destruct d as [| |p|i t c]; cbn [chunks_of last_data last_for];
    try (rewrite IH; destruct (last_data j ds); reflexivity).
  rewrite IH. destruct (last_data j ds) as [[t' c']|]; [reflexivity|].
  cbn. destruct (j =? i)%Z; reflexivity.
Qed.

Lemma last_packet_chunk (j total : Z) (c : list byte) (ds : list delivery) :
  last_packet j ds = Some (file_data_packet j total c) ->
  last_for j (chunks_of ds) = Some c.
Proof.
  unfold last_packet. rewrite last_for_chunks_of.
  destruct (last_data j ds) as [[t' c']|]; [|discriminate].
  unfold file_data_packet. intros H. injection H as _ H.
  apply b64encode_injective in H. subst c'. reflexivity.
Qed.

Section Session.

Variable node_id : string.
Variable save_dir : string.
Variable openable : string -> bool.

Lemma step_data_any (info : packet) (m : gmap pykey (list byte))
    (i total total' : Z) (chunk : list byte) :
  truthy (Some info) = true ->
  pget "chunks" info = Some (JInt total) ->
  receive_step node_id save_dir openable (mkSession (Some info) m)
    (RxPacket (file_data_packet i total' chunk))
  = (mkSession (Some info) (<[KInt i := chunk]> m),
     if (total =? 0)%Z then [ErrorProcessing] else [], false).
Proof.
  intros Htruthy Hchunks.
  unfold receive_step, file_data_packet.
  change (type_is _ "FILE_INFO") with false.
  change (type_is _ "FILE_DATA") with true.
  cbn [file_info andb]. rewrite Htruthy.
  unfold on_file_data.
  change (pget "chunk" _) with (Some (JInt i)).
  change (pget "data" _) with (Some (JStr (b64encode chunk))).
  cbn match. rewrite b64_round_trip. cbn [key_of file_info chunks].
  unfold info_get. cbn [file_info]. rewrite Hchunks.
  destruct total; reflexivity.
Qed.

Lemma step_stray (st : session) (p : packet) :
  admissible (Stray p) = true ->
  receive_step node_id save_dir openable st (RxPacket p) = (st, [], false).
Proof.
  cbn [admissible]. intros H.
  apply andb_true_iff in H as [H Hc]. apply andb_true_iff in H as [Hi Hd].
  apply negb_true_iff in Hi, Hd, Hc.
  unfold receive_step. rewrite Hi, Hd, Hc. reflexivity.
Qed.

(** Between announcement and completion: the data packets are stored,
    in order, and nothing but error lines is produced. *)
Lemma loop_between (info : packet) (total : Z) (ds : list delivery) :
  truthy (Some info) = true ->
  pget "chunks" info = Some (JInt total) ->
  forallb admissible ds = true ->
  forall m : gmap pykey (list byte),
  exists evs,
    receive_loop node_id save_dir openable (mkSession (Some info) m)
      (map item_of ds)
    = (mkSession (Some info) (store_all (chunks_of ds) m), evs, false)
    /\ outcome_events evs = [].
Proof.
  intros Htruthy Hchunks.
  induction ds as [|d ds IH]; intros Hok m.
  - exists []. split; reflexivity.
  - cbn [forallb] in Hok. apply andb_true_iff in Hok as [Hd Hok].
    cbn [map receive_loop].
    destruct d as [| |p|i t c]; cbn [item_of chunks_of].
    + destruct (IH Hok m) as (evs & Hrun & Hevs).
      cbn [receive_step]. rewrite Hrun. exists evs. split; [reflexivity|exact Hevs].
    + destruct (IH Hok m) as (evs & Hrun & Hevs).
      cbn [receive_step]. rewrite Hrun. exists (ErrorProcessing :: evs).
      split; [reflexivity|exact Hevs].
    + destruct (IH Hok m) as (evs & Hrun & Hevs).
      rewrite (step_stray _ p Hd). rewrite Hrun. exists evs.
      split; [reflexivity|exact Hevs].
    + destruct (IH Hok (<[KInt i := c]> m)) as (evs & Hrun & Hevs).
      rewrite (step_data_any info m i total t c Htruthy Hchunks).
      rewrite Hrun. eexists. split; [reflexivity|].
      unfold outcome_events in *. rewrite List.filter_app, Hevs.
      destruct (total =? 0)%Z; reflexivity.
Qed.

End Session.

(** C4. A file is sent with a positive chunk size and the sender's
    packets are the announcement, ceil(N / chunk_size) data packets and
    the completion packet. The receiver, whose save directory can be
    made, gets the announcement; then any sequence of timeouts,
    undecodable data, unrelated objects and data packets (any indices,
    any chunks, in any order and with repeats) in which, for every
    index, the LAST data packet with this index is the sender's; then
    the completion packet. It acknowledges, writes exactly the original
    bytes under the announced name, reports a digest match and stops,
    and but for error lines these are all the events. *)
Theorem file_round_trip (node_tx node_rx dest save_dir filename : string)
    (openable dir_ready : string -> bool) (chunk_size : Z)
    (content : list byte) (l : link) (info complete : packet)
    (datas : list packet) (middle : list delivery) :
  0 < chunk_size ->
  send_file node_tx chunk_size (Some content) filename dest l
    = (info :: datas ++ [complete], Returned true) ->
  forallb admissible middle = true ->
  (forall j d, nth_error datas j = Some d ->
     last_packet (Z.of_nat j) middle = Some d) ->
  makedirs dir_ready save_dir = true ->
  openable (path_join save_dir filename) = true ->
  Z.of_nat (List.length datas)
    = (Z.of_nat (List.length content) + chunk_size - 1) / chunk_size
  /\ exists st evs,
      receive_file node_rx save_dir openable dir_ready
        (RxPacket info :: map item_of middle ++ [RxPacket complete])
      = Some (st, evs, true)
      /\ outcome_events evs
         = [SendAck (ack_packet node_rx);
            WriteFile (path_join save_dir filename) content;
            HashVerified (path_join save_dir filename)
              (md5_hexdigest content)].
Proof.
  intros Hcs Hsend Hok Hlast Hdir Hopen.
  assert (Hinfo : info_sent l = true).
  { destruct (info_sent l) eqn:E; [reflexivity|].
    unfold send_file in Hsend. rewrite E in Hsend.
    destruct (chunk_size =? 0)%Z; discriminate. }
  assert (Hack : ack_received l = true).
  { destruct (ack_received l) eqn:E; [reflexivity|].
    unfold send_file in Hsend. rewrite Hinfo, E in Hsend.
    destruct (chunk_size =? 0)%Z; discriminate. }
  rewrite (send_file_frames node_tx filename dest chunk_size content l
             Hcs Hinfo Hack) in Hsend.
  injection Hsend as Hi Htail. apply app_inj_tail in Htail as [Hd Hc].
  subst info datas complete.
  set (total := num_chunks_of chunk_size content) in *.
  set (n := Z.to_nat total) in *.
  assert (Htotal : 0 <= total).
  { unfold total, num_chunks_of. apply Z.div_pos; lia. }
  split.
  { unfold data_packets. fold total. fold n.
    rewrite length_map, length_seq. unfold n.
    rewrite Z2Nat.id by exact Htotal. reflexivity. }
  set (info := file_info_packet node_tx dest filename
                 (Z.of_nat (List.length content)) total
                 (md5_hexdigest content)).
  destruct (loop_between node_rx save_dir openable info total middle
              eq_refl eq_refl Hok ∅) as (evs & Hrun & Hevs).
  exists (mkSession (Some info) (store_all (chunks_of middle) ∅)).
  exists (SendAck (ack_packet node_rx)
          :: evs
          ++ [WriteFile (path_join save_dir filename) content;
              HashVerified (path_join save_dir filename)
                (md5_hexdigest content)]).
  assert (Hbytes : assemble (store_all (chunks_of middle) ∅) n 0 = content).
  { change 0 with (Z.of_nat 0). rewrite assemble_store_all.
    etransitivity; [|apply (chunks_make_content chunk_size content Hcs)].
    fold total. fold n. f_equal. apply map_ext_in. intros j Hj.
    apply in_seq in Hj.
    assert (Hnth : nth_error (data_packets chunk_size content) j
                   = Some (file_data_packet (Z.of_nat j) total
                             (chunk_at chunk_size content j))).
    { unfold data_packets. fold total. fold n.
      rewrite nth_error_map, nth_error_seq.
      destruct (j <? n)%nat eqn:E; [reflexivity|].
      apply Nat.ltb_ge in E. lia. }
    rewrite (last_packet_chunk _ _ _ _ (Hlast j _ Hnth)). reflexivity. }
  split.
  - unfold receive_file. rewrite Hdir. cbn [receive_loop].
    pose proof (step_file_info node_rx save_dir openable session_start node_tx
                  dest filename (md5_hexdigest content)
                  (Z.of_nat (List.length content)) total) as Hfirst.
    cbn zeta in Hfirst. fold info in Hfirst. rewrite Hfirst.
    rewrite (loop_app node_rx save_dir openable _ _ _ _ _ Hrun).
    cbn [receive_loop].
    rewrite (step_file_complete node_rx save_dir openable info
               (store_all (chunks_of middle) ∅) filename
               filename (md5_hexdigest content) total
               eq_refl eq_refl eq_refl Hopen).
    fold n. rewrite Hbytes, String.eqb_refl. reflexivity.
  - unfold outcome_events in *. cbn [List.filter is_error negb].
    rewrite List.filter_app, Hevs. reflexivity.
Qed.

Lemma file_round_trip_witness :
  let content := encode "hello world!" in
  let info := file_info_packet "NODE_A" "NODE_B" "hello.txt" 12 3
                (md5_hexdigest content) in
  let complete := file_complete_packet "hello.txt" (md5_hexdigest content) in
  let middle :=
    [Data 2 3 (encode "d!"); Quiet; Data 0 3 (encode "HELLO");
     Data 7 9 (encode "stale"); Garbled; Data 1 3 (encode " worl");
     Stray [("type", JStr "PING"); ("seq", JInt 1)];
     Data 0 3 (encode "hello")] in
  exists st evs,
    receive_file "NODE_B" "./received" (fun _ => true) (fun _ => true)
      (RxPacket info :: map item_of middle ++ [RxPacket complete])
    = Some (st, evs, true)
    /\ outcome_events evs
       = [SendAck (ack_packet "NODE_B");
          WriteFile "./received/hello.txt" content;
          HashVerified "./received/hello.txt" (md5_hexdigest content)].
Proof.
  intros content info complete middle.
  assert (Hcs : 0 < 5) by lia.
  refine (proj2 (file_round_trip "NODE_A" "NODE_B" "NODE_B" "./received"
                   "hello.txt" (fun _ => true) (fun _ => true) 5 content
                   (mkLink true true (fun _ => true))
                   info complete
                   [file_data_packet 0 3 (encode "hello");
                    file_data_packet 1 3 (encode " worl");
                    file_data_packet 2 3 (encode "d!")]
                   middle Hcs _ _ _ _ _)).
  - vm_compute. reflexivity.
  - reflexivity.
  - intros [|[|[|j]]] d Hd; cbn in Hd;
      [injection Hd as <-; reflexivity ..|].
    destruct j; discriminate.
  - reflexivity.
  - reflexivity.
Defined.

End RoundTripFacts.
